(** * torchgeometry.augmentation.affine

    A shallow embedding of [torchgeometry/augmentation/affine.py]: the
    homogeneous-matrix builders, the four matrix wrapper classes and the
    entry points [rotate], [translate] and [affine].

    Tensors are contiguous row-major buffers with an explicit shape, as the
    array backend stores them.  Their float entries are read as rationals
    ([Q]): rounding, infinities and NaN are outside the model.  Python
    exceptions are values of [Exception]; a function that may raise returns
    a [result]. *)

From Stdlib Require Import String.
From Stdlib Require Import List Arith Bool Lia.
From Stdlib Require Import QArith Lqa.
Import ListNotations.

Local Open Scope nat_scope.

(** ** Exceptions and the error monad *)

Inductive Exception : Type :=
| TypeError (msg : string)
| ValueError (msg : string)
| AssertionError
| IndexError
| AttributeError
| RuntimeError
| CoreShapeError.   (* raised inside torchgeometry.core *)

Inductive result (A : Type) : Type :=
| Ok (a : A)
| Err (e : Exception).

Arguments Ok {A} a.
Arguments Err {A} e.

Definition bind {A B} (r : result A) (k : A -> result B) : result B :=
  match r with
  | Ok a => k a
  | Err e => Err e
  end.

Notation "x <- c ;; k" := (bind c (fun x => k))
  (at level 61, c at next level, right associativity).
Notation "' pat <- c ;; k" := (bind c (fun x => match x with pat => k end))
  (at level 61, pat pattern, c at next level, right associativity).

Definition is_ok {A} (r : result A) : bool :=
  match r with Ok _ => true | Err _ => false end.

(** ** Tensors *)

Record Tensor : Type := mkTensor { shape : list nat; data : list Q }.

Definition numel (s : list nat) : nat := fold_right Nat.mul 1 s.

Definition ndimension (t : Tensor) : nat := length (shape t).

(** A tensor is well formed when its buffer has one entry per index. *)
Definition wf (t : Tensor) : Prop := length (data t) = numel (shape t).

(** [chunks n k l]: the first [k] consecutive pieces of [l], [n] items each. *)
Fixpoint chunks {A} (n k : nat) (l : list A) : list (list A) :=
  match k with
  | O => []
  | S k' => firstn n l :: chunks n k' (skipn n l)
  end.

(** [tensor.shape[0]]; a rank-0 shape has no item 0. *)
Definition shape0 (t : Tensor) : result nat :=
  match shape t with
  | [] => Err IndexError
  | d :: _ => Ok d
  end.

(** [tensor.shape[-2:]]. *)
Definition shape_last2 (t : Tensor) : list nat :=
  skipn (length (shape t) - 2) (shape t).

(** Splits a shape of rank at least two into leading dimensions, rows and
    columns. *)
Fixpoint split_last2 (s : list nat) : option (list nat * nat * nat) :=
  match s with
  | [] => None
  | [_] => None
  | [r; c] => Some ([], r, c)
  | d :: s' =>
      match split_last2 s' with
      | Some (lead, r, c) => Some (d :: lead, r, c)
      | None => None
      end
  end.

(** Entry at a multi-index, by the row-major offset. *)
Fixpoint offset (s idx : list nat) : option nat :=
  match s, idx with
  | [], [] => Some 0
  | d :: s', i :: idx' =>
      if i <? d then
        match offset s' idx' with
        | Some o => Some (i * numel s' + o)
        | None => None
        end
      else None
  | _, _ => None
  end.

Definition item (t : Tensor) (idx : list nat) : option Q :=
  match offset (shape t) idx with
  | Some o => nth_error (data t) o
  | None => None
  end.

(** [t[b]]: the [b]-th slice along the first dimension. *)
Definition select0 (t : Tensor) (b : nat) : result Tensor :=
  match shape t with
  | [] => Err IndexError
  | d :: s =>
      if b <? d
      then Ok (mkTensor s (firstn (numel s) (skipn (b * numel s) (data t))))
      else Err IndexError
  end.

(** Equality of tensors up to equality of rationals. *)
Definition data_equiv (l1 l2 : list Q) : Prop := Forall2 Qeq l1 l2.

Definition tensor_equiv (t1 t2 : Tensor) : Prop :=
  shape t1 = shape t2 /\ data_equiv (data t1) (data t2).

Fixpoint data_eqb (l1 l2 : list Q) : bool :=
  match l1, l2 with
  | [], [] => true
  | x :: l1', y :: l2' => Qeq_bool x y && data_eqb l1' l2'
  | _, _ => false
  end.

Definition tensor_eqb (t1 t2 : Tensor) : bool :=
  (if list_eq_dec Nat.eq_dec (shape t1) (shape t2) then true else false)
  && data_eqb (data t1) (data t2).

(** ** The array backend

    The operations of the tensor library that the module calls, on the
    row-major representation.  Each one raises what the library raises when
    its arguments do not fit. *)

Definition Qlt_bool (x y : Q) : bool := negb (Qle_bool y x).

Fixpoint map2 {A B C} (f : A -> B -> C) (l1 : list A) (l2 : list B) : list C :=
  match l1, l2 with
  | x :: l1', y :: l2' => f x y :: map2 f l1' l2'
  | _, _ => []
  end.

(** *** Broadcasting *)

Fixpoint broadcast_rev (r1 r2 : list nat) : option (list nat) :=
  match r1, r2 with
  | [], r => Some r
  | r, [] => Some r
  | d1 :: t1, d2 :: t2 =>
      match broadcast_rev t1 t2 with
      | Some t =>
          if d1 =? d2 then Some (d1 :: t)
          else if d1 =? 1 then Some (d2 :: t)
          else if d2 =? 1 then Some (d1 :: t)
          else None
      | None => None
      end
  end.

(** Shapes are aligned on their last dimension. *)
Definition broadcast_shapes (s1 s2 : list nat) : option (list nat) :=
  option_map (@rev nat) (broadcast_rev (rev s1) (rev s2)).

Definition pad_shape (n : nat) (s : list nat) : list nat :=
  repeat 1 (n - length s) ++ s.

(** [expand_items s target xs]: [xs] holds one item per index of shape [s];
    the result holds one per index of [target], a dimension of size one
    being read again for every index of the target. *)
Fixpoint expand_items {A} (s target : list nat) (xs : list A) : list A :=
  match s, target with
  | d :: s', e :: target' =>
      let groups := map (expand_items s' target') (chunks (numel s') d xs) in
      if d =? e then concat groups else concat (repeat (concat groups) e)
  | _, _ => xs
  end.

Definition shape_eqb (s1 s2 : list nat) : bool :=
  if list_eq_dec Nat.eq_dec s1 s2 then true else false.

(** The buffer of a tensor of shape [s] read at shape [target]; [None] when
    [s] does not broadcast to [target]. *)
Definition broadcast_to (s target : list nat) (d : list Q) : option (list Q) :=
  match broadcast_shapes s target with
  | Some bs =>
      if shape_eqb bs target
      then Some (expand_items (pad_shape (length target) s) target d)
      else None
  | None => None
  end.

(** *** torch.matmul *)

Definition dot (u v : list Q) : Q :=
  fold_right Qplus 0%Q (map2 Qmult u v).

Definition column (j : nat) (rows : list (list Q)) : list Q :=
  map (fun r => nth j r 0%Q) rows.

(** Product of an [n x m] by an [m x p] matrix. *)
Definition mm (n m p : nat) (a b : list Q) : list Q :=
  let brows := chunks p m b in
  flat_map (fun r => map (fun j => dot r (column j brows)) (seq 0 p))
           (chunks m n a).

(** A 1-D left operand is read as a row, a 1-D right operand as a column,
    and the added dimension is dropped from the result; the leading (batch)
    dimensions broadcast. *)
Definition matmul (a b : Tensor) : result Tensor :=
  let ra := length (shape a) in
  let rb := length (shape b) in
  if (ra =? 0) || (rb =? 0) then Err RuntimeError else
  let sa := if ra =? 1 then 1 :: shape a else shape a in
  let sb := if rb =? 1 then shape b ++ [1] else shape b in
  match split_last2 sa, split_last2 sb with
  | Some (la, n, m), Some (lb, m', p) =>
      if m =? m' then
        match broadcast_shapes la lb with
        | Some bs =>
            let k := length bs in
            let xa := expand_items (pad_shape k la) bs
                        (chunks (n * m) (numel la) (data a)) in
            let xb := expand_items (pad_shape k lb) bs
                        (chunks (m * p) (numel lb) (data b)) in
            Ok (mkTensor
                  (bs ++ (if ra =? 1 then [] else [n])
                      ++ (if rb =? 1 then [] else [p]))
                  (concat (map2 (mm n m p) xa xb)))
        | None => Err RuntimeError
        end
      else Err RuntimeError
  | _, _ => Err RuntimeError
  end.

(** *** Construction and views *)

(** [torch.eye(3)[None]]. *)
Definition eye3_batch : Tensor :=
  mkTensor [1; 3; 3] [1; 0; 0; 0; 1; 0; 0; 0; 1]%Q.

(** [t.repeat(n, 1, 1)]. *)
Definition repeat_batch (t : Tensor) (n : nat) : result Tensor :=
  match pad_shape 3 (shape t) with
  | [d0; d1; d2] =>
      Ok (mkTensor [n * d0; d1; d2] (concat (repeat (data t) n)))
  | _ => Err RuntimeError
  end.

Definition ones_like (t : Tensor) : Tensor :=
  mkTensor (shape t) (map (fun _ => 1%Q) (data t)).

Definition unsqueeze0 (t : Tensor) : Tensor := mkTensor (1 :: shape t) (data t).

Definition squeeze0 (t : Tensor) : Tensor :=
  match shape t with
  | 1 :: s => mkTensor s (data t)
  | _ => t
  end.

(** [torch.cat([-t, t])]. *)
Definition cat_neg_pos (t : Tensor) : result Tensor :=
  match shape t with
  | [] => Err RuntimeError
  | d :: s => Ok (mkTensor ((d + d) :: s) (map Qopp (data t) ++ data t))
  end.

(** [t.expand(n, -1)]. *)
Definition expand_rows (t : Tensor) (n : nat) : result Tensor :=
  match shape t with
  | [k] => Ok (mkTensor [n; k] (concat (repeat (data t) n)))
  | [m; k] =>
      if m =? n then Ok t
      else if m =? 1 then Ok (mkTensor [n; k] (concat (repeat (data t) n)))
      else Err RuntimeError
  | _ => Err RuntimeError
  end.

(** [bool(t < q)]: only a one-element tensor has a truth value. *)
Definition bool_lt (t : Tensor) (q : Q) : result bool :=
  match data t with
  | [x] => Ok (Qlt_bool x q)
  | _ => Err RuntimeError
  end.

(** [F.pad(t, (0, 0, 0, 1), "constant", 0.0)]: one row of zeros under every
    matrix. *)
Definition pad_bottom_row (t : Tensor) : result Tensor :=
  match split_last2 (shape t) with
  | Some (lead, r, c) =>
      Ok (mkTensor (lead ++ [S r; c])
            (flat_map (fun blk => blk ++ repeat 0%Q c)
                      (chunks (r * c) (numel lead) (data t))))
  | None => Err RuntimeError
  end.

(** [t[..., -1, -1] += q]. *)
Definition iadd_last_entry (t : Tensor) (q : Q) : result Tensor :=
  match split_last2 (shape t) with
  | Some (lead, r, c) =>
      if (r =? 0) || (c =? 0) then Err IndexError
      else
        Ok (mkTensor (shape t)
              (flat_map (fun blk => removelast blk ++ [(last blk 0 + q)%Q])
                        (chunks (r * c) (numel lead) (data t))))
  | None => Err IndexError
  end.

(** [torch.chunk(t, chunks=2, dim=-1)], unpacked into two names. *)
Definition chunk2 (t : Tensor) : result (Tensor * Tensor) :=
  match rev (shape t) with
  | [] => Err RuntimeError
  | n :: rlead =>
      if n =? 1 then Err (ValueError "not enough values to unpack")
      else
        let lead := rev rlead in
        let k := (n + 1) / 2 in
        let rows := chunks n (numel lead) (data t) in
        Ok (mkTensor (lead ++ [k]) (flat_map (firstn k) rows),
            mkTensor (lead ++ [n - k]) (flat_map (skipn k) rows))
  end.

(** [t[..., i, lo:hi] += v]; [v] broadcasts to the addressed slice. *)
Definition iadd_row_slice (t : Tensor) (i lo hi : nat) (v : Tensor)
  : result Tensor :=
  match split_last2 (shape t) with
  | Some (lead, r, c) =>
      if i <? r then
        let lo' := Nat.min lo c in
        let w := Nat.min hi c - lo' in
        match broadcast_to (shape v) (lead ++ [w]) (data v) with
        | Some vals =>
            let pos := i * c + lo' in
            Ok (mkTensor (shape t)
                  (concat
                     (map2 (fun blk add =>
                              firstn pos blk
                              ++ map2 Qplus (firstn w (skipn pos blk)) add
                              ++ skipn (pos + w) blk)
                           (chunks (r * c) (numel lead) (data t))
                           (chunks w (numel lead) vals))))
        | None => Err RuntimeError
        end
      else Err IndexError
  | None => Err IndexError
  end.

(** [t[..., :rows, :cols]]. *)
Definition slice_top_left (t : Tensor) (rows cols : nat) : result Tensor :=
  match split_last2 (shape t) with
  | Some (lead, r, c) =>
      Ok (mkTensor (lead ++ [Nat.min rows r; Nat.min cols c])
            (flat_map (fun blk =>
                         flat_map (firstn cols) (firstn rows (chunks c r blk)))
                      (chunks (r * c) (numel lead) (data t))))
  | None => Err IndexError
  end.

(** *** The random source

    The backend's generator is process-wide state.  It is threaded
    explicitly: [unit_draw k] is the [k]-th variate of the unit interval the
    generator will hand out and [cursor] counts those already used. *)

Record Generator : Type := mkGenerator { unit_draw : nat -> Q; cursor : nat }.

(** [torch.tensor(init).uniform_(lo, hi)]: every entry is replaced by a fresh
    draw scaled to the range. *)
Definition uniform_ (t : Tensor) (lo hi : Q) (g : Generator)
  : Tensor * Generator :=
  let n := length (data t) in
  (mkTensor (shape t)
     (map (fun k => (lo + unit_draw g k * (hi - lo))%Q) (seq (cursor g) n)),
   mkGenerator (unit_draw g) (cursor g + n)).

(** ** torchgeometry.core

    [get_rotation_matrix2d] and [warp_affine] are imported from
    [torchgeometry.core].  The numbers they compute (the trigonometry of a
    rotation, the interpolation of pixels) are left open as the members of
    [Kernels]; no statement below depends on them. *)

Class Kernels : Type := {
  (* center (cx, cy), angle, scale: the two rows of the 2x3 matrix *)
  rotation2d : Q * Q -> Q -> Q -> (Q * Q * Q) * (Q * Q * Q);
  (* source batch, 2x3 matrices, then batch, channel, row and column of the
     output pixel *)
  warp_pixel : Tensor -> Tensor -> nat -> nat -> nat -> nat -> Q
}.

Definition rows2x3 (m : (Q * Q * Q) * (Q * Q * Q)) : list Q :=
  let '((a, b, tx), (c, d, ty)) := m in [a; b; tx; c; d; ty].

(** Modelled from the spec: [get_rotation_matrix2d] of [torchgeometry.core],
    which is not among the sources.  It takes a batch of centers [(B, 2)],
    of angles [(B)] and of scales [(B)] and returns the batch [(B, 2, 3)] of
    rotations about the centers; it fails with a shape error when the batch
    sizes differ.  Arguments that are not batches of this form are rejected
    the same way. *)
Definition get_rotation_matrix2d {K : Kernels} (center angle scale : Tensor)
  : result Tensor :=
  match shape center, shape angle, shape scale with
  | [bc; 2], [ba], [bs] =>
      if (bc =? ba) && (ba =? bs) then
        Ok (mkTensor [bc; 2; 3]
              (concat
                 (map2 (fun c '(a, s) =>
                          rows2x3 (rotation2d (nth 0 c 0%Q, nth 1 c 0%Q) a s))
                       (chunks 2 bc (data center))
                       (combine (data angle) (data scale)))))
      else Err CoreShapeError
  | _, _, _ => Err CoreShapeError
  end.

(** Modelled from the spec: [warp_affine] of [torchgeometry.core], which is
    not among the sources.  It resamples an image batch [(B, C, H, W)] under
    a batch of 2x3 affine maps, one per image, to the output size [(h, w)]
    and returns an image batch with the same channel count, [(B, C, h, w)].
    The leading dimension of the matrices must match the image batch size:
    a mismatch is a shape error, and so are arguments that are not of this
    form. *)
Definition warp_affine {K : Kernels} (src M : Tensor) (dsize : list nat)
  : result Tensor :=
  match shape src, shape M, dsize with
  | [b; c; _; _], [bm; 2; 3], [h; w] =>
      if bm =? b then
        Ok (mkTensor [b; c; h; w]
              (flat_map (fun bi =>
                 flat_map (fun ci =>
                   flat_map (fun i =>
                     map (fun j => warp_pixel src M bi ci i j) (seq 0 w))
                   (seq 0 h))
                 (seq 0 c))
               (seq 0 b)))
      else Err CoreShapeError
  | _, _, _ => Err CoreShapeError
  end.

(** ** Python values

    [rotate] and [translate] test the dynamic type of their arguments, so
    these are Python objects: [None], a tensor, or something else (a number
    or a list of numbers). *)

Inductive PyObject : Type :=
| PyNone
| PyTensor (t : Tensor)
| PyFloat (q : Q)
| PyList (l : list Q).

Definition is_tensor (o : PyObject) : bool :=
  match o with PyTensor _ => true | _ => false end.

Definition is_none (o : PyObject) : bool :=
  match o with PyNone => true | _ => false end.

(** Access to a tensor attribute ([.shape], [.expand], ...): only tensors
    have them. *)
Definition tensor_attr (o : PyObject) : result Tensor :=
  match o with
  | PyTensor t => Ok t
  | _ => Err AttributeError
  end.

(** [t.tolist()] followed by the items 0 and 1 passed to [uniform_] as its
    bounds: the items of a 1-D tensor are numbers; those of a tensor of
    higher rank are lists, which [uniform_] refuses; a 0-D tensor gives a
    number, which has no items. *)
Definition tolist_bounds (t : Tensor) : result (Q * Q) :=
  match shape t with
  | [] => Err (TypeError "'float' object is not subscriptable")
  | [_] =>
      match data t with
      | lo :: hi :: _ => Ok (lo, hi)
      | _ => Err IndexError
      end
  | d :: _ =>
      if d <? 2 then Err IndexError
      else Err (TypeError "uniform_(): argument 'from' must be Number, not list")
  end.

(** ** Matrix builders *)

Definition compute_rotation_center (tensor : Tensor) : result Tensor :=
  match shape_last2 tensor with
  | [height; width] =>
      let center_x := (inject_Z (Z.of_nat width - 1) / 2)%Q in
      let center_y := (inject_Z (Z.of_nat height - 1) / 2)%Q in
      Ok (mkTensor [2] [center_x; center_y])
  | _ => Err (ValueError "not enough values to unpack")
  end.

Definition convert_matrix2d_to_homogeneous (matrix : Tensor) : result Tensor :=
  (* pad last two dimensions with zeros *)
  matrix_h <- pad_bottom_row matrix ;;
  iadd_last_entry matrix_h 1%Q.

Definition identity_matrix : Tensor := eye3_batch.

Definition rotation_matrix {K : Kernels} (angle center : Tensor) : result Tensor :=
  let scale := ones_like angle in
  m <- get_rotation_matrix2d center angle scale ;;
  convert_matrix2d_to_homogeneous m.

Definition translation_matrix (translation : Tensor) : result Tensor :=
  let matrix := identity_matrix in
  b <- shape0 translation ;;
  matrix <- repeat_batch matrix b ;;
  '(dx, dy) <- chunk2 translation ;;
  matrix <- iadd_row_slice matrix 0 2 3 dx ;;
  matrix <- iadd_row_slice matrix 1 2 3 dy ;;
  Ok matrix.

(** ** Matrix wrappers

    An instance is a record of its attributes; an attribute that may hold
    [None] is an [option].  A method that assigns to [self] returns the
    updated instance, also when it raises. *)

Module TranslationMatrix.

Record t : Type := mk { translation : option Tensor; matrix : option Tensor }.

Definition _generate_matrix (self : t) : result Tensor :=
  match translation self with
  | None => Err AssertionError
  | Some tr => translation_matrix tr
  end.

Definition __init__ (translation : option Tensor) : result t :=
  let self := mk translation None in
  m <- _generate_matrix self ;;
  Ok (mk translation (Some m)).

Definition affine (self : t) : result Tensor :=
  match matrix self with
  | None => Err AssertionError
  | Some m => slice_top_left m 2 3
  end.

Definition forward (self : t) (input : Tensor) : result Tensor :=
  match matrix self with
  | None => Err AssertionError
  | Some m => matmul m input
  end.

End TranslationMatrix.

Module RotationMatrix.

Record t : Type := mk {
  angle : option Tensor;
  center : option Tensor;
  matrix : option Tensor
}.

Definition _generate_matrix {K : Kernels} (self : t) : result Tensor :=
  match angle self, center self with
  | None, _ => Err AssertionError
  | _, None => Err AssertionError
  | Some a, Some c => rotation_matrix a c
  end.

Definition __init__ {K : Kernels} (angle center : option Tensor) : result t :=
  let self := mk angle center None in
  m <- _generate_matrix self ;;
  Ok (mk angle center (Some m)).

Definition affine (self : t) : result Tensor :=
  match matrix self with
  | None => Err AssertionError
  | Some m => slice_top_left m 2 3
  end.

Definition forward (self : t) (input : Tensor) : result Tensor :=
  match matrix self with
  | None => Err AssertionError
  | Some m => matmul m input
  end.

End RotationMatrix.

Module RandomRotationMatrix.

Record t : Type := mk {
  degrees : Tensor;
  center : option Tensor;
  angle : option Tensor;
  matrix : option Tensor
}.

Definition set_angle (self : t) (a : Tensor) : t :=
  mk (degrees self) (center self) (Some a) (matrix self).

Definition set_matrix (self : t) (m : Tensor) : t :=
  mk (degrees self) (center self) (angle self) (Some m).

Definition __init__ (degrees : Tensor) (center : option Tensor) : result t :=
  if length (shape degrees) =? 1 then
    neg <- bool_lt degrees 0%Q ;;
    if neg
    then Err (ValueError "If degrees is a single number, it must be positive.")
    else
      d <- cat_neg_pos degrees ;;
      Ok (mk d center None None)
  else
    if negb (length (shape degrees) =? 2)
    then Err (ValueError "If degrees is a sequence, it must be of len 2.")
    else Ok (mk degrees center None None).

Definition _generate_params (self : t) (num_samples : nat) (g : Generator)
  : result Tensor * Generator :=
  match tolist_bounds (degrees self) with
  | Ok (lo, hi) =>
      let '(angle, g') :=
        uniform_ (mkTensor [1] [inject_Z (Z.of_nat num_samples)]) lo hi g in
      (Ok angle, g')
  | Err e => (Err e, g)
  end.

Definition _generate_matrix {K : Kernels} (self : t) (num_samples : nat)
    (g : Generator) : result Tensor * t * Generator :=
  match center self with
  | None => (Err AssertionError, self, g)
  | Some c =>
      match _generate_params self num_samples g with
      | (Ok a, g') => (rotation_matrix a c, set_angle self a, g')
      | (Err e, g') => (Err e, self, g')
      end
  end.

Definition affine (self : t) : result Tensor :=
  match matrix self with
  | None => Err AssertionError
  | Some m => slice_top_left m 2 3
  end.

Definition forward {K : Kernels} (self : t) (input : Tensor) (g : Generator)
  : result Tensor * t * Generator :=
  if negb (length (shape input) =? 3) then (Err AssertionError, self, g)
  else
    match center self with
    | None => (Err AssertionError, self, g)
    | Some _ =>
        match shape0 input with
        | Err e => (Err e, self, g)
        | Ok num_samples =>
            match _generate_matrix self num_samples g with
            | (Ok m, self', g') =>
                (matmul input m, set_matrix self' m, g')
            | (Err e, self', g') => (Err e, self', g')
            end
        end
    end.

End RandomRotationMatrix.

Module RandomTranslationMatrix.

Record t : Type := mk { translation : Tensor; matrix : option Tensor }.

Definition __init__ (translation : Tensor) : result t :=
  if negb (length (shape translation) =? 1)
  then Err (ValueError "Translation tensor must be of size of 2.")
  else
    n <- shape0 translation ;;
    if n =? 1 then
      tr <- cat_neg_pos translation ;;
      Ok (mk tr None)
    else if n =? 2 then Ok (mk translation None)
    else Err (ValueError "If translation is a sequence, it must be of len 2.").

Definition _generate_params (self : t) (num_samples : nat) (g : Generator)
  : result Tensor * Generator :=
  match tolist_bounds (translation self) with
  | Ok (lo, hi) =>
      let zeros := mkTensor [num_samples; 2] (repeat 0%Q (num_samples * 2)) in
      let '(tr, g') := uniform_ zeros lo hi g in
      (Ok tr, g')
  | Err e => (Err e, g)
  end.

Definition _generate_matrix (self : t) (num_samples : nat) (g : Generator)
  : result Tensor * t * Generator :=
  match _generate_params self num_samples g with
  | (Ok tr, g') => (translation_matrix tr, mk tr (matrix self), g')
  | (Err e, g') => (Err e, self, g')
  end.

Definition affine (self : t) : result Tensor :=
  match matrix self with
  | None => Err AssertionError
  | Some m => slice_top_left m 2 3
  end.

Definition forward (self : t) (input : Tensor) (g : Generator)
  : result Tensor * t * Generator :=
  if negb (length (shape input) =? 3) then (Err AssertionError, self, g)
  else
    match shape0 input with
    | Err e => (Err e, self, g)
    | Ok num_samples =>
        match _generate_matrix self num_samples g with
        | (Ok m, self', g') =>
            (matmul input m, mk (translation self') (Some m), g')
        | (Err e, self', g') => (Err e, self', g')
        end
    end.

End RandomTranslationMatrix.

(** ** Entry points *)

Definition affine {K : Kernels} (tensor matrix : Tensor) : result Tensor :=
  (* warping needs data in the shape of BCHW *)
  let is_unbatched := ndimension tensor =? 3 in
  let tensor := if is_unbatched then unsqueeze0 tensor else tensor in
  (* warp the input tensor *)
  warped <- warp_affine tensor matrix (shape_last2 tensor) ;;
  (* return in the original shape *)
  Ok (if is_unbatched then squeeze0 warped else warped).

Definition msg_tensor_type : string :=
  "Input tensor type is not a torch.Tensor. Got {}".
Definition msg_angle_type : string :=
  "Input angle type is not a torch.Tensor. Got {}".
Definition msg_center_type : string :=
  "Input center type is not a torch.Tensor. Got {}".
Definition msg_translation_type : string :=
  "Input translation type is not a torch.Tensor. Got {}".
Definition msg_invalid_shape : string :=
  "Invalid tensor shape, we expect CxHxW or BxCxHxW. Got: {}".
Definition msg_shapes_must_match : string :=
  "Input tensor and angle shapes must match. Got tensor: {0} and angle: {1}".

Definition rotate {K : Kernels} (tensor angle center : PyObject) : result Tensor :=
  if negb (is_tensor tensor) then Err (TypeError msg_tensor_type) else
  if negb (is_tensor angle) then Err (TypeError msg_angle_type) else
  if negb (is_none center) && negb (is_tensor angle)
  then Err (TypeError msg_center_type) else
  t <- tensor_attr tensor ;;
  a <- tensor_attr angle ;;
  let rank := length (shape t) in
  if negb ((rank =? 3) || (rank =? 4))
  then Err (ValueError msg_invalid_shape) else
  mismatch <-
    (if (rank =? 3) && negb (length (shape a) =? 1) then Ok true
     else if rank =? 4 then
       bt <- shape0 t ;;
       ba <- shape0 a ;;
       Ok (negb (bt =? ba))
     else Ok false) ;;
  if (mismatch : bool) then Err (ValueError msg_shapes_must_match) else
  (* compute the rotation center *)
  center <- (if is_none center
             then c <- compute_rotation_center t ;; Ok (PyTensor c)
             else Ok center) ;;
  (* compute the rotation matrix *)
  c <- tensor_attr center ;;
  n <- shape0 a ;;
  c <- expand_rows c n ;;
  rotation_matrix <- RotationMatrix.__init__ (Some a) (Some c) ;;
  (* warp using the affine transform *)
  m <- RotationMatrix.affine rotation_matrix ;;
  affine t m.

Definition translate {K : Kernels} (tensor translation : PyObject)
  : result Tensor :=
  if negb (is_tensor tensor) then Err (TypeError msg_tensor_type) else
  if negb (is_tensor translation) then Err (TypeError msg_translation_type) else
  t <- tensor_attr tensor ;;
  tr <- tensor_attr translation ;;
  let rank := length (shape t) in
  if negb ((rank =? 3) || (rank =? 4))
  then Err (ValueError msg_invalid_shape) else
  (* compute the translation matrix *)
  translation_matrix <- TranslationMatrix.__init__ (Some tr) ;;
  (* warp using the affine transform *)
  m <- TranslationMatrix.affine translation_matrix ;;
  affine t m.

Module Rotate.

Record t : Type := mk { angle : PyObject; center : PyObject }.

Definition __init__ (angle center : PyObject) : t := mk angle center.

Definition forward {K : Kernels} (self : t) (input : PyObject) : result Tensor :=
  rotate input (angle self) (center self).

End Rotate.

Module Translate.

Record t : Type := mk { translation : PyObject }.

Definition __init__ (translation : PyObject) : t := mk translation.

Definition forward {K : Kernels} (self : t) (input : PyObject) : result Tensor :=
  translate input (translation self).

End Translate.

(** ** Running the definitions

    The kernels of the rotation by angle zero and of the warp that copies
    pixels: an instance of [Kernels] for evaluating the entry points on
    concrete inputs. *)
Definition identity_kernels : Kernels := {|
  rotation2d := fun _ _ s => ((s, 0, 0), (0, s, 0))%Q;
  warp_pixel := fun src _ b c i j =>
    match item src [b; c; i; j] with
    | Some q => q
    | None => 0%Q
    end
|}.

(** A generator whose every draw is one half. *)
Definition midpoint_generator : Generator := mkGenerator (fun _ => 1 # 2)%Q 0.

(** A caller applying one random rotation wrapper to a list of inputs, one
    call after another. *)
Fixpoint forward_each {K : Kernels} (self : RandomRotationMatrix.t)
    (inputs : list Tensor) (g : Generator)
  : list (result Tensor) * RandomRotationMatrix.t * Generator :=
  match inputs with
  | [] => ([], self, g)
  | input :: rest =>
      let '(r, self', g') := RandomRotationMatrix.forward self input g in
      let '(rs, self'', g'') := forward_each self' rest g' in
      (r :: rs, self'', g'')
  end.


Definition is_type_error {A} (r : result A) : bool :=
  match r with
  | Err (TypeError _) => true
  | _ => false
  end.

(** The batch size of a tensor is its leading dimension. *)
Definition batch_size (t : Tensor) : option nat := hd_error (shape t).

(** The row of a translation batch and the matrix built from it. *)
Definition pair_row (p : Q * Q) : list Q := [fst p; snd p].
Definition translation_block (p : Q * Q) : list Q :=
  [1; 0; 0 + fst p; 0; 1; 0 + snd p; 0; 0; 1]%Q.

(** [A] holds, for every matrix of the batch [M] of [B] 3x3 matrices, its
    top-left 2x3 submatrix. *)
Definition top_left_2x3 (A M : Tensor) (B : nat) : Prop :=
  shape A = [B; 2; 3] /\
  wf A /\
  forall b i j, b < B -> i < 2 -> j < 3 ->
    exists q, item A [b; i; j] = Some q /\ item M [b; i; j] = Some q.


(** The angle an instance holds, if any, lies within the bound [d]. *)
Definition angle_within (d : Q) (self : RandomRotationMatrix.t) : Prop :=
  forall a, RandomRotationMatrix.angle self = Some a ->
            Forall (fun x => - d <= x /\ x <= d)%Q (data a).

(** * Properties *)




(** ** The definitions on concrete inputs *)

Example matmul_matrices :
  matmul (mkTensor [2; 2] [1; 2; 3; 4]%Q) (mkTensor [2; 2] [0; 1; 1; 0]%Q)
  = Ok (mkTensor [2; 2] [2; 1; 4; 3]%Q).
Proof. reflexivity. Qed.

Example matmul_broadcasts_batch :
  matmul (mkTensor [2; 1; 2] [1; 2; 3; 4]%Q) (mkTensor [1; 2; 1] [1; 1]%Q)
  = Ok (mkTensor [2; 1; 1] [3; 7]%Q).
Proof. reflexivity. Qed.

Example matmul_inner_mismatch :
  matmul (mkTensor [1; 3; 3] [1; 0; 0; 0; 1; 0; 0; 0; 1]%Q)
         (mkTensor [1; 1; 3] [1; 2; 1]%Q)
  = Err RuntimeError.
Proof. reflexivity. Qed.

Example convert_matrix2d_to_homogeneous_example :
  convert_matrix2d_to_homogeneous (mkTensor [1; 2; 3] [1; 2; 3; 4; 5; 6]%Q)
  = Ok (mkTensor [1; 3; 3] [1; 2; 3; 4; 5; 6; 0; 0; 0 + 1]%Q).
Proof. reflexivity. Qed.

Example compute_rotation_center_example :
  compute_rotation_center (mkTensor [3; 4; 5] (repeat 0%Q 60))
  = Ok (mkTensor [2] [4 # 2; 3 # 2]%Q).
Proof. reflexivity. Qed.

Example translation_matrix_example :
  translation_matrix (mkTensor [2; 2] [1; 2; 3; 4]%Q)
  = Ok (mkTensor [2; 3; 3]
          [1; 0; 0 + 1; 0; 1; 0 + 2; 0; 0; 1;
           1; 0; 0 + 3; 0; 1; 0 + 4; 0; 0; 1]%Q).
Proof. reflexivity. Qed.

Example translation_matrix_one_column :
  is_ok (translation_matrix (mkTensor [2; 1] [1; 2]%Q)) = false.
Proof. reflexivity. Qed.

Example rotate_unbatched_example :
  rotate (K := identity_kernels)
    (PyTensor (mkTensor [1; 2; 2] [1; 2; 3; 4]%Q))
    (PyTensor (mkTensor [1] [0]%Q)) PyNone
  = Ok (mkTensor [1; 2; 2] [1; 2; 3; 4]%Q).
Proof. reflexivity. Qed.

Example rotate_batch_mismatch_example :
  rotate (K := identity_kernels)
    (PyTensor (mkTensor [2; 1; 1; 1] [1; 2]%Q))
    (PyTensor (mkTensor [1] [0]%Q)) PyNone
  = Err (ValueError msg_shapes_must_match).
Proof. reflexivity. Qed.

Example translate_example :
  translate (K := identity_kernels)
    (PyTensor (mkTensor [1; 2; 2] [1; 2; 3; 4]%Q))
    (PyTensor (mkTensor [1; 2] [0; 0]%Q))
  = Ok (mkTensor [1; 2; 2] [1; 2; 3; 4]%Q).
Proof. reflexivity. Qed.

Example random_rotation_init_negative :
  RandomRotationMatrix.__init__ (mkTensor [1] [- (5)]%Q) None
  = Err (ValueError "If degrees is a single number, it must be positive.").
Proof. reflexivity. Qed.

Example random_rotation_init_long_sequence :
  RandomRotationMatrix.__init__ (mkTensor [3] [1; 2; 3]%Q) None
  = Err RuntimeError.
Proof. reflexivity. Qed.

Example random_translation_init_pair :
  RandomTranslationMatrix.__init__ (mkTensor [2] [- (3); 7]%Q)
  = Ok (RandomTranslationMatrix.mk (mkTensor [2] [- (3); 7]%Q) None).
Proof. reflexivity. Qed.

(** ** Lists cut into pieces *)

Lemma chunks_length {A} (n k : nat) (l : list A) :
  length (chunks n k l) = k.
Proof.
  revert l; induction k as [|k IH]; intros l; simpl; [reflexivity|].
  now rewrite IH.
Qed.

Lemma chunks_concat_map {A B} (n : nat) (f : B -> list A) (xs : list B) :
  (forall x, length (f x) = n) ->
  chunks n (length xs) (concat (map f xs)) = map f xs.
Proof.
  intros Hlen; induction xs as [|x xs IH]; simpl; [reflexivity|].
  rewrite firstn_app, skipn_app, Hlen, Nat.sub_diag.
  rewrite firstn_all2 by (rewrite Hlen; lia).
  rewrite skipn_all2 by (rewrite Hlen; lia).
  simpl. rewrite app_nil_r. now rewrite IH.
Qed.

Lemma concat_chunks {A} (n k : nat) (l : list A) :
  length l = k * n -> concat (chunks n k l) = l.
Proof.
  revert l; induction k as [|k IH]; intros l Hl; simpl in *.
  - now destruct l.
  - rewrite IH.
    + apply firstn_skipn.
    + rewrite length_skipn. lia.
Qed.

Lemma map2_map_same {A B C D} (f : B -> C -> D) (g : A -> B) (h : A -> C)
    (xs : list A) :
  map2 f (map g xs) (map h xs) = map (fun x => f (g x) (h x)) xs.
Proof.
  induction xs as [|x xs IH]; simpl; [reflexivity|]. now rewrite IH.
Qed.

Lemma repeat_as_map {A B} (x : A) (xs : list B) :
  repeat x (length xs) = map (fun _ => x) xs.
Proof.
  induction xs as [|y xs IH]; simpl; [reflexivity|]. now rewrite IH.
Qed.

Lemma flat_map_map {A B C} (f : B -> list C) (g : A -> B) (xs : list A) :
  flat_map f (map g xs) = concat (map (fun x => f (g x)) xs).
Proof.
  induction xs as [|x xs IH]; simpl; [reflexivity|]. now rewrite IH.
Qed.

(** The [b]-th piece of a concatenation of pieces of equal length. *)
Lemma piece_of_concat {A B} (n : nat) (f : B -> list A) (xs : list B)
    (b : nat) (x : B) :
  (forall y, length (f y) = n) ->
  nth_error xs b = Some x ->
  firstn n (skipn (b * n) (concat (map f xs))) = f x.
Proof.
  intros Hlen; revert b; induction xs as [|y xs IH]; intros b Hb.
  - destruct b; discriminate.
  - destruct b as [|b]; simpl in *.
    + injection Hb as ->.
      rewrite firstn_app, Hlen, Nat.sub_diag. simpl.
      rewrite app_nil_r. apply firstn_all2. rewrite Hlen; lia.
    + rewrite skipn_app, Hlen.
      rewrite (skipn_all2 (f y)) by (rewrite Hlen; lia). simpl.
      replace (n + b * n - n) with (b * n) by lia.
      now apply IH.
Qed.

(** ** Translation matrices *)

(** A shape broadcasts to itself and leaves the buffer as it is. *)
Lemma broadcast_rev_refl r : broadcast_rev r r = Some r.
Proof.
  induction r as [|d r IH]; simpl; [reflexivity|].
  destruct r; simpl in *; rewrite ?IH, Nat.eqb_refl; reflexivity.
Qed.

Lemma broadcast_shapes_refl s : broadcast_shapes s s = Some s.
Proof.
  unfold broadcast_shapes. rewrite broadcast_rev_refl. simpl.
  now rewrite rev_involutive.
Qed.

Lemma expand_items_same {A} (s : list nat) (xs : list A) :
  length xs = numel s -> expand_items s s xs = xs.
Proof.
  revert xs; induction s as [|d s IH]; intros xs Hl; simpl; [reflexivity|].
  rewrite Nat.eqb_refl.
  assert (Hc : forall k (l : list A), length l = k * numel s ->
            concat (map (expand_items s s) (chunks (numel s) k l)) = l).
  { induction k as [|k IHk]; intros l Hk; simpl in *.
    - now destruct l.
    - rewrite IH by (rewrite length_firstn; lia).
      rewrite IHk by (rewrite length_skipn; lia).
      apply firstn_skipn. }
  apply Hc. simpl in Hl. lia.
Qed.

Lemma broadcast_to_same s d :
  length d = numel s -> broadcast_to s s d = Some d.
Proof.
  intros Hl. unfold broadcast_to. rewrite broadcast_shapes_refl.
  unfold shape_eqb. destruct (list_eq_dec Nat.eq_dec s s); [|congruence].
  unfold pad_shape. rewrite Nat.sub_diag. simpl.
  now rewrite expand_items_same.
Qed.

Lemma iadd_row_slice_blocks {B} (f : B -> list Q) (v : B -> Q)
    (xs : list B) (i : nat) :
  i < 3 ->
  (forall x, length (f x) = 9) ->
  iadd_row_slice (mkTensor [length xs; 3; 3] (concat (map f xs))) i 2 3
                 (mkTensor [length xs; 1] (concat (map (fun x => [v x]) xs)))
  = Ok (mkTensor [length xs; 3; 3]
          (concat (map (fun x =>
                          firstn (i * 3 + 2) (f x)
                          ++ map2 Qplus (firstn 1 (skipn (i * 3 + 2) (f x))) [v x]
                          ++ skipn (i * 3 + 2 + 1) (f x)) xs))).
Proof.
  intros Hi Hf. unfold iadd_row_slice.
  cbn [shape data split_last2 app Nat.min Nat.sub].
  apply Nat.ltb_lt in Hi. rewrite Hi.
  rewrite broadcast_to_same.
  2:{ clear. induction xs; simpl in *; lia. }
  cbn [numel fold_right]. rewrite !Nat.mul_1_r.
  change (3 * 3) with 9.
  rewrite (chunks_concat_map 9) by assumption.
  rewrite (chunks_concat_map 1) by reflexivity.
  now rewrite map2_map_same.
Qed.

Lemma translation_matrix_rows (ps : list (Q * Q)) :
  translation_matrix (mkTensor [length ps; 2] (concat (map pair_row ps)))
  = Ok (mkTensor [length ps * 1; 3; 3] (concat (map translation_block ps))).
Proof.
  unfold translation_matrix, shape0, identity_matrix, repeat_batch, chunk2.
  cbn [shape data bind pad_shape eye3_batch length Nat.sub repeat app rev Nat.eqb].
  change ((2 + 1) / 2) with 1. cbn [Nat.sub].
  cbn [numel fold_right].
  rewrite Nat.mul_1_r.
  rewrite (chunks_concat_map 2) by reflexivity.
  rewrite !flat_map_map.
  cbn [pair_row firstn skipn].
  rewrite repeat_as_map.
  rewrite (iadd_row_slice_blocks (fun _ => _) fst) by (reflexivity || lia).
  cbn [bind].
  rewrite (iadd_row_slice_blocks _ snd) by (reflexivity || lia).
  cbn [bind]. reflexivity.
Qed.


Lemma rows_of_pairs (B : nat) (d : list Q) :
  length d = B * 2 ->
  exists ps, length ps = B /\ d = concat (map pair_row ps).
Proof.
  revert d; induction B as [|B IH]; intros d Hd.
  - exists []. destruct d; [now split | discriminate].
  - destruct d as [|x [|y d]]; simpl in Hd; try lia.
    destruct (IH d) as [ps [Hps ->]]; [lia|].
    exists ((x, y) :: ps). simpl. now rewrite Hps.
Qed.

Lemma length_concat_blocks {B} (n : nat) (f : B -> list Q) (xs : list B) :
  (forall x, length (f x) = n) ->
  length (concat (map f xs)) = length xs * n.
Proof.
  intros Hf; induction xs as [|x xs IH]; simpl; [reflexivity|].
  rewrite length_app, Hf, IH. reflexivity.
Qed.

(** C9: for a batch of translation vectors [(dx, dy)], every matrix of
    [translation_matrix] is the identity with [dx] added at entry (0,2) and
    [dy] at entry (1,2), and its product with a homogeneous point
    [(x, y, 1)] is [(x + dx, y + dy, 1)]. *)
Theorem translation_matrix_translates :
  forall (translation : Tensor) (B : nat),
    shape translation = [B; 2] ->
    wf translation ->
    exists M,
      translation_matrix translation = Ok M /\
      shape M = [B; 3; 3] /\
      wf M /\
      forall b dx dy,
        select0 translation b = Ok (mkTensor [2] [dx; dy]) ->
        select0 M b
        = Ok (mkTensor [3; 3] [1; 0; 0 + dx; 0; 1; 0 + dy; 0; 0; 1]%Q) /\
        forall x y,
          exists p,
            (Mb <- select0 M b ;; matmul Mb (mkTensor [3] [x; y; 1]%Q)) = Ok p /\
            tensor_equiv p (mkTensor [3] [x + dx; y + dy; 1]%Q).
Proof.
  intros [s d] B Hs Hwf. simpl in Hs; subst s.
  unfold wf in Hwf; simpl in Hwf.
  destruct (rows_of_pairs B d) as [ps [Hps ->]]; [lia|]. subst B.
  rewrite translation_matrix_rows, Nat.mul_1_r.
  eexists; split; [reflexivity|]. split; [reflexivity|]. split.
  { unfold wf; simpl.
    rewrite (length_concat_blocks 9) by reflexivity. lia. }
  intros b dx dy Hsel.
  unfold select0 in *. cbn [shape data] in *.
  destruct (b <? length ps) eqn:Hb; [|discriminate].
  apply Nat.ltb_lt in Hb.
  destruct (nth_error ps b) as [p|] eqn:Hp;
    [|apply nth_error_None in Hp; lia].
  change (numel [2]) with 2 in Hsel.
  rewrite (piece_of_concat 2 pair_row ps b p) in Hsel by (reflexivity || assumption).
  injection Hsel as Hdx Hdy.
  change (numel [3; 3]) with 9.
  rewrite (piece_of_concat 9 translation_block ps b p) by (reflexivity || assumption).
  unfold translation_block. rewrite Hdx, Hdy.
  split; [reflexivity|].
  intros x y. eexists. split.
  - cbv -[Qplus Qmult]. reflexivity.
  - split; [reflexivity|]. cbn [data].
    repeat constructor; ring.
Qed.

Lemma translation_matrix_translates_witness :
  let translation := mkTensor [2; 2] [1; 2; 3; 4]%Q in
  shape translation = [2; 2] /\
  wf translation /\
  select0 translation 1 = Ok (mkTensor [2] [3; 4]%Q) /\
  exists M,
    translation_matrix translation = Ok M /\
    select0 M 1 = Ok (mkTensor [3; 3] [1; 0; 0 + 3; 0; 1; 0 + 4; 0; 0; 1]%Q).
Proof.
  split; [reflexivity|]. split; [reflexivity|]. split; [reflexivity|].
  destruct (translation_matrix_translates
              (mkTensor [2; 2] [1; 2; 3; 4]%Q) 2 eq_refl eq_refl)
    as [M [HM [_ [_ Hrows]]]].
  exists M. split; [exact HM|].
  apply (Hrows 1 3%Q 4%Q). reflexivity.
Defined.

(** A single vector [[dx, dy]] given without a batch dimension is taken for
    a batch of two rows and yields the same matrix twice. *)
Lemma translation_matrix_single_vector (dx dy : Q) :
  translation_matrix (mkTensor [2] [dx; dy])
  = Ok (mkTensor [2; 3; 3]
          [1; 0; 0 + dx; 0; 1; 0 + dy; 0; 0; 1;
           1; 0; 0 + dx; 0; 1; 0 + dy; 0; 0; 1]%Q).
Proof. reflexivity. Qed.

(** ** The affine part of a stored matrix *)

Lemma slice_rows_nth (B : nat) :
  forall (d : list Q) (b k : nat),
    length d = B * 9 -> b < B -> k < 6 ->
    nth_error
      (flat_map (fun blk => flat_map (firstn 3) (firstn 2 (chunks 3 3 blk)))
                (chunks 9 B d))
      (b * 6 + k)
    = nth_error d (b * 9 + k).
Proof.
  induction B as [|B IH]; intros d b k Hd Hb Hk; [lia|].
  do 9 (destruct d as [|? d]; [simpl in Hd; lia|]).
  cbn [chunks firstn skipn flat_map app].
  destruct b as [|b].
  - do 6 (destruct k as [|k]; [reflexivity|]). lia.
  - replace (S b * 6 + k) with (6 + (b * 6 + k)) by lia.
    replace (S b * 9 + k) with (9 + (b * 9 + k)) by lia.
    cbn [Nat.add nth_error].
    apply IH; simpl in Hd; lia.
Qed.

Lemma slice_rows_length (B : nat) :
  forall d : list Q,
    length d = B * 9 ->
    length (flat_map (fun blk => flat_map (firstn 3) (firstn 2 (chunks 3 3 blk)))
                     (chunks 9 B d)) = B * 6.
Proof.
  induction B as [|B IH]; intros d Hd; [reflexivity|].
  do 9 (destruct d as [|? d]; [simpl in Hd; lia|]).
  cbn [chunks firstn skipn flat_map app length].
  rewrite IH by (simpl in Hd; lia). lia.
Qed.

Lemma slice_top_left_3x3 (M : Tensor) (B : nat) :
  shape M = [B; 3; 3] -> wf M ->
  exists A, slice_top_left M 2 3 = Ok A /\ top_left_2x3 A M B.
Proof.
  destruct M as [s d]; unfold wf; cbn [shape data]; intros -> Hwf.
  cbn [numel fold_right] in Hwf.
  unfold slice_top_left. cbn [shape data split_last2 app Nat.min numel fold_right].
  rewrite Nat.mul_1_r. change (3 * 3) with 9.
  eexists; split; [reflexivity|].
  split; [reflexivity|]. split.
  - unfold wf; cbn [shape data numel fold_right].
    rewrite slice_rows_length by lia. lia.
  - intros b i j Hb Hi Hj.
    unfold item; cbn [shape data offset numel fold_right].
    assert (Hi3 : (i <? 3) = true) by (apply Nat.ltb_lt; lia).
    apply Nat.ltb_lt in Hb, Hi, Hj. rewrite Hb, Hi, Hj, Hi3.
    apply Nat.ltb_lt in Hb, Hi, Hj.
    replace (b * (2 * (3 * 1)) + (i * (3 * 1) + (j * 1 + 0)))
      with (b * 6 + (i * 3 + j)) by lia.
    replace (b * (3 * (3 * 1)) + (i * (3 * 1) + (j * 1 + 0)))
      with (b * 9 + (i * 3 + j)) by lia.
    rewrite slice_rows_nth by lia.
    destruct (nth_error d (b * 9 + (i * 3 + j))) as [q|] eqn:Hq.
    + now exists q.
    + apply nth_error_None in Hq. lia.
Qed.

(** C8: [affine()] of every wrapper returns the top-left 2x3 submatrix of
    the stored 3x3 matrices when the matrix has been generated and fails
    with [AssertionError] when it has not; a random wrapper holds no matrix
    when it leaves its constructor. *)
Theorem wrapper_affine_top_left :
  (forall self : TranslationMatrix.t,
     match TranslationMatrix.matrix self with
     | None => TranslationMatrix.affine self = Err AssertionError
     | Some M => forall B, shape M = [B; 3; 3] -> wf M ->
         exists A, TranslationMatrix.affine self = Ok A /\ top_left_2x3 A M B
     end) /\
  (forall self : RotationMatrix.t,
     match RotationMatrix.matrix self with
     | None => RotationMatrix.affine self = Err AssertionError
     | Some M => forall B, shape M = [B; 3; 3] -> wf M ->
         exists A, RotationMatrix.affine self = Ok A /\ top_left_2x3 A M B
     end) /\
  (forall self : RandomRotationMatrix.t,
     match RandomRotationMatrix.matrix self with
     | None => RandomRotationMatrix.affine self = Err AssertionError
     | Some M => forall B, shape M = [B; 3; 3] -> wf M ->
         exists A, RandomRotationMatrix.affine self = Ok A /\ top_left_2x3 A M B
     end) /\
  (forall self : RandomTranslationMatrix.t,
     match RandomTranslationMatrix.matrix self with
     | None => RandomTranslationMatrix.affine self = Err AssertionError
     | Some M => forall B, shape M = [B; 3; 3] -> wf M ->
         exists A,
           RandomTranslationMatrix.affine self = Ok A /\ top_left_2x3 A M B
     end) /\
  (forall degrees center self,
     RandomRotationMatrix.__init__ degrees center = Ok self ->
     RandomRotationMatrix.affine self = Err AssertionError) /\
  (forall translation self,
     RandomTranslationMatrix.__init__ translation = Ok self ->
     RandomTranslationMatrix.affine self = Err AssertionError).
Proof.
  repeat split.
  - intros [tr [M|]]; cbn; [|reflexivity].
    intros B Hs Hwf. now apply slice_top_left_3x3.
  - intros [a c [M|]]; cbn; [|reflexivity].
    intros B Hs Hwf. now apply slice_top_left_3x3.
  - intros [d c a [M|]]; cbn; [|reflexivity].
    intros B Hs Hwf. now apply slice_top_left_3x3.
  - intros [tr [M|]]; cbn; [|reflexivity].
    intros B Hs Hwf. now apply slice_top_left_3x3.
  - intros degrees center self.
    unfold RandomRotationMatrix.__init__.
    destruct (length (shape degrees) =? 1).
    + destruct (bool_lt degrees 0%Q) as [[|]|e]; cbn; try discriminate.
      destruct (cat_neg_pos degrees); cbn; [|discriminate].
      now intros [= <-].
    + destruct (negb (length (shape degrees) =? 2)); [discriminate|].
      now intros [= <-].
  - intros translation self.
    unfold RandomTranslationMatrix.__init__.
    destruct (negb (length (shape translation) =? 1)); [discriminate|].
    destruct (shape0 translation) as [n|e]; cbn; [|discriminate].
    destruct (n =? 1).
    + destruct (cat_neg_pos translation); cbn; [|discriminate].
      now intros [= <-].
    + destruct (n =? 2); [|discriminate]. now intros [= <-].
Qed.

Lemma wrapper_affine_top_left_witness :
  (exists self A,
     TranslationMatrix.__init__ (Some (mkTensor [1; 2] [5; 7]%Q)) = Ok self /\
     TranslationMatrix.affine self = Ok A /\
     shape A = [1; 2; 3] /\
     item A [0; 1; 2] = Some (0 + 7)%Q) /\
  (exists self,
     RandomTranslationMatrix.__init__ (mkTensor [2] [-3; 7]%Q) = Ok self /\
     RandomTranslationMatrix.affine self = Err AssertionError).
Proof.
  destruct wrapper_affine_top_left as [Htr [_ [_ [_ [_ Hfresh]]]]].
  split.
  - pose (M := mkTensor [1; 3; 3] [1; 0; 0 + 5; 0; 1; 0 + 7; 0; 0; 1]%Q).
    pose (self := TranslationMatrix.mk (Some (mkTensor [1; 2] [5; 7]%Q)) (Some M)).
    destruct (Htr self 1 eq_refl eq_refl) as [A [HA [Hshape [_ Hitems]]]].
    exists self, A. split; [reflexivity|]. split; [exact HA|].
    split; [exact Hshape|].
    destruct (Hitems 0 1 2) as [q [Hq HM]]; [lia | lia | lia |].
    rewrite Hq. rewrite <- HM. reflexivity.
  - eexists. split; [reflexivity|].
    apply (Hfresh (mkTensor [2] [-3; 7]%Q)). reflexivity.
Defined.


(** ** Random rotation without a center *)

(** What the constructor leaves in a new instance. *)
Lemma random_rotation_init_fields (degrees : Tensor) (center : option Tensor)
    (self : RandomRotationMatrix.t) :
  RandomRotationMatrix.__init__ degrees center = Ok self ->
  RandomRotationMatrix.center self = center /\
  RandomRotationMatrix.angle self = None /\
  RandomRotationMatrix.matrix self = None.
Proof.
  unfold RandomRotationMatrix.__init__.
  destruct (length (shape degrees) =? 1).
  - destruct (bool_lt degrees 0%Q) as [[|]|e]; cbn; try discriminate.
    destruct (cat_neg_pos degrees); cbn; [|discriminate].
    now intros [= <-].
  - destruct (negb (length (shape degrees) =? 2)); [discriminate|].
    now intros [= <-].
Qed.

(** C10: a [RandomRotationMatrix] constructed without a center holds
    [center = None]; every [forward] call on it, and so every call of a
    sequence of calls, fails with [AssertionError] before anything is
    sampled and leaves the instance, its missing matrix included, and the
    generator as they were. *)
Theorem random_rotation_without_center
    (K : Kernels) (degrees : Tensor) (self : RandomRotationMatrix.t) :
  RandomRotationMatrix.__init__ degrees None = Ok self ->
  RandomRotationMatrix.center self = None /\
  RandomRotationMatrix.matrix self = None /\
  (forall input g,
     RandomRotationMatrix.forward self input g = (Err AssertionError, self, g)) /\
  (forall inputs g,
     forward_each self inputs g
     = (map (fun _ => Err AssertionError) inputs, self, g)).
Proof.
  intros Hinit.
  destruct (random_rotation_init_fields _ _ _ Hinit) as [Hc [_ Hm]].
  assert (Hfwd : forall input g,
             RandomRotationMatrix.forward self input g
             = (Err AssertionError, self, g)).
  { intros input g. unfold RandomRotationMatrix.forward. rewrite Hc.
    now destruct (negb (length (shape input) =? 3)). }
  repeat split; try assumption.
  intros inputs; induction inputs as [|input rest IH]; intros g; simpl.
  - reflexivity.
  - now rewrite Hfwd, IH.
Qed.

Lemma random_rotation_without_center_witness :
  exists self,
    RandomRotationMatrix.__init__ (mkTensor [1] [10]%Q) None = Ok self /\
    RandomRotationMatrix.forward (K := identity_kernels) self
      (mkTensor [1; 1; 3] [1; 2; 1]%Q) midpoint_generator
    = (Err AssertionError, self, midpoint_generator).
Proof.
  eexists. split; [reflexivity|].
  apply (random_rotation_without_center identity_kernels (mkTensor [1] [10]%Q)).
  reflexivity.
Defined.

(** ** Rotation matrices *)

(** C5: [rotation_matrix(angle, center)] fails with a shape error whenever
    the batch sizes of the angles and of the centers differ. *)
Theorem rotation_matrix_batch_mismatch
    (K : Kernels) (angle center : Tensor) :
  batch_size angle <> batch_size center ->
  rotation_matrix angle center = Err CoreShapeError.
Proof.
  unfold batch_size, rotation_matrix, get_rotation_matrix2d, ones_like.
  cbn [shape].
  intros Hne.
  destruct (shape center) as [|bc [|[|[|[|?]]] [|? ?]]]; try reflexivity.
  destruct (shape angle) as [|ba [|? ?]]; try reflexivity.
  cbn [hd_error] in Hne.
  destruct (Nat.eqb_spec bc ba) as [->|]; [congruence|reflexivity].
Qed.

Lemma rotation_matrix_batch_mismatch_witness :
  batch_size (mkTensor [2] [0; 90]%Q)
    <> batch_size (mkTensor [3; 2] [0; 0; 1; 1; 2; 2]%Q) /\
  rotation_matrix (K := identity_kernels)
    (mkTensor [2] [0; 90]%Q) (mkTensor [3; 2] [0; 0; 1; 1; 2; 2]%Q)
  = Err CoreShapeError.
Proof.
  split; [discriminate|].
  apply rotation_matrix_batch_mismatch. discriminate.
Defined.

(** With one center per angle the batch of homogeneous matrices is built. *)
Lemma rotation_matrix_shape (K : Kernels) (angle center : Tensor) (B : nat) :
  shape angle = [B] -> shape center = [B; 2] ->
  exists M, rotation_matrix angle center = Ok M /\ shape M = [B; 3; 3].
Proof.
  intros Ha Hc.
  unfold rotation_matrix, get_rotation_matrix2d, ones_like.
  cbn [shape]. rewrite Ha, Hc, Nat.eqb_refl. cbn [andb bind].
  unfold convert_matrix2d_to_homogeneous, pad_bottom_row, iadd_last_entry.
  cbn [shape data split_last2 bind app Nat.eqb orb].
  eexists. split; reflexivity.
Qed.

(** ** Warping *)

(** C7: on a rank-3 tensor [(C, H, W)], [affine] hands the warp primitive
    the tensor with a leading dimension of size one, the 2x3 matrix and the
    output size [(H, W)], and returns the result without that dimension, in
    the shape of its input; on a rank-4 tensor [(B, C, H, W)] with one 2x3
    matrix per image the result has the shape of the input. *)
Theorem affine_keeps_shape (K : Kernels) :
  (forall tensor matrix C H W,
     shape tensor = [C; H; W] ->
     shape matrix = [1; 2; 3] ->
     exists warped,
       warp_affine (mkTensor [1; C; H; W] (data tensor)) matrix [H; W]
       = Ok warped /\
       affine tensor matrix = Ok (squeeze0 warped) /\
       shape (squeeze0 warped) = [C; H; W]) /\
  (forall tensor matrix B C H W,
     shape tensor = [B; C; H; W] ->
     shape matrix = [B; 2; 3] ->
     exists warped,
       warp_affine tensor matrix [H; W] = Ok warped /\
       affine tensor matrix = Ok warped /\
       shape warped = [B; C; H; W]).
Proof.
  split.
  - intros [s d] matrix C H W Hs Hm. cbn [shape data] in *. subst s.
    unfold affine, ndimension, warp_affine, unsqueeze0, shape_last2.
    cbn [shape data length Nat.eqb Nat.sub skipn]. rewrite Hm.
    cbn [Nat.eqb].
    eexists. split; [reflexivity|]. split; reflexivity.
  - intros [s d] matrix B C H W Hs Hm. cbn [shape data] in *. subst s.
    unfold affine, ndimension, warp_affine, shape_last2.
    cbn [shape data length Nat.eqb Nat.sub skipn]. rewrite Hm, Nat.eqb_refl.
    eexists. split; [reflexivity|]. split; reflexivity.
Qed.

Lemma affine_keeps_shape_witness :
  let tensor := mkTensor [1; 2; 2] [1; 2; 3; 4]%Q in
  let matrix := mkTensor [1; 2; 3] [1; 0; 0; 0; 1; 0]%Q in
  shape tensor = [1; 2; 2] /\
  shape matrix = [1; 2; 3] /\
  exists out,
    affine (K := identity_kernels) tensor matrix = Ok out /\
    shape out = [1; 2; 2].
Proof.
  split; [reflexivity|]. split; [reflexivity|].
  destruct (proj1 (affine_keeps_shape identity_kernels)
              (mkTensor [1; 2; 2] [1; 2; 3; 4]%Q)
              (mkTensor [1; 2; 3] [1; 0; 0; 0; 1; 0]%Q)
              1 2 2 eq_refl eq_refl) as [warped [_ [Haff Hshape]]].
  exists (squeeze0 warped). split; [exact Haff | exact Hshape].
Defined.

(** With a number of matrices other than the number of images the warp
    primitive refuses the call. *)
Lemma affine_batch_mismatch (K : Kernels) (tensor matrix : Tensor) (Bm : nat) :
  shape matrix = [Bm; 2; 3] ->
  (length (shape tensor) = 3 /\ Bm <> 1) \/
  (length (shape tensor) = 4 /\ batch_size tensor <> Some Bm) ->
  affine tensor matrix = Err CoreShapeError.
Proof.
  intros Hm Hrank. unfold affine, ndimension, warp_affine, shape_last2,
    unsqueeze0, batch_size in *.
  destruct (shape tensor) as [|d0 [|d1 [|d2 [|d3 [|? ?]]]]] eqn:Hs;
    cbn [length] in Hrank; try lia.
  - cbn [length Nat.eqb shape data Nat.sub skipn]. rewrite ?Hs, Hm.
    destruct Hrank as [[_ Hne]|[? _]]; [|discriminate].
    destruct (Nat.eqb_spec Bm 1); [contradiction|reflexivity].
  - cbn [length Nat.eqb shape data Nat.sub skipn]. rewrite ?Hs, Hm.
    destruct Hrank as [[? _]|[_ Hne]]; [discriminate|].
    cbn [length Nat.sub skipn hd_error] in *.
    destruct (Nat.eqb_spec Bm d0); [congruence|reflexivity].
Qed.

(** ** The checks of [rotate] *)

Lemma shape0_error (t : Tensor) (e : Exception) :
  shape0 t = Err e -> e = IndexError.
Proof.
  unfold shape0. destruct (shape t); [now intros [= <-] | discriminate].
Qed.

(** What is left of [rotate] once its checks have passed. *)
Lemma rotate_steps (K : Kernels) (t a : Tensor) (c : PyObject) :
  rotate (PyTensor t) (PyTensor a) c =
  let rank := length (shape t) in
  if negb ((rank =? 3) || (rank =? 4))
  then Err (ValueError msg_invalid_shape) else
  mismatch <-
    (if (rank =? 3) && negb (length (shape a) =? 1) then Ok true
     else if rank =? 4 then
       bt <- shape0 t ;; ba <- shape0 a ;; Ok (negb (bt =? ba))
     else Ok false) ;;
  if (mismatch : bool) then Err (ValueError msg_shapes_must_match) else
  center <- (if is_none c
             then c' <- compute_rotation_center t ;; Ok (PyTensor c')
             else Ok c) ;;
  c' <- tensor_attr center ;;
  n <- shape0 a ;;
  c'' <- expand_rows c' n ;;
  rotation_matrix <- RotationMatrix.__init__ (Some a) (Some c'') ;;
  m <- RotationMatrix.affine rotation_matrix ;;
  affine t m.
Proof.
  unfold rotate. cbn [is_tensor negb andb tensor_attr bind].
  rewrite andb_false_r. reflexivity.
Qed.

(** C2: with a tensor and an angle that are tensors, [rotate] never raises
    [TypeError], whatever the center is: the guard on the center tests the
    angle again, so a center that is neither [None] nor a tensor goes
    through the type checks. *)
Theorem rotate_center_type_unchecked
    (K : Kernels) (t a : Tensor) (c : PyObject) :
  is_none c = false ->
  is_tensor c = false ->
  is_type_error (rotate (PyTensor t) (PyTensor a) c) = false.
Proof.
  intros Hnone Htensor. rewrite rotate_steps. cbv zeta.
  destruct (negb _); [reflexivity|].
  rewrite Hnone.
  assert (Hattr : tensor_attr c = Err AttributeError)
    by (destruct c; try reflexivity; discriminate).
  destruct (_ && _).
  - reflexivity.
  - destruct (length (shape t) =? 4).
    + destruct (shape0 t) as [bt|e] eqn:Ht; cbn [bind];
        [|now rewrite (shape0_error _ _ Ht)].
      destruct (shape0 a) as [ba|e] eqn:Ha; cbn [bind];
        [|now rewrite (shape0_error _ _ Ha)].
      destruct (negb (bt =? ba)); [reflexivity|].
      rewrite Hattr. reflexivity.
    + cbn [bind]. rewrite Hattr. reflexivity.
Qed.

Lemma rotate_center_type_unchecked_witness :
  let tensor := mkTensor [1; 2; 2] [1; 2; 3; 4]%Q in
  let angle := mkTensor [1] [90]%Q in
  let center := PyList [1 # 2; 1 # 2]%Q in
  is_none center = false /\
  is_tensor center = false /\
  is_type_error
    (rotate (K := identity_kernels) (PyTensor tensor) (PyTensor angle) center)
  = false /\
  rotate (K := identity_kernels) (PyTensor tensor) (PyTensor angle) center
  = Err AttributeError.
Proof.
  split; [reflexivity|]. split; [reflexivity|]. split.
  - apply rotate_center_type_unchecked; reflexivity.
  - reflexivity.
Defined.

(** ** The constructor of [RandomRotationMatrix] *)

(** C4: the constructor decides on the rank of [degrees], not on its length.
    An explicit pair [[lo, hi]], a 1-D tensor of two degrees, takes the
    branch of the single bound, where the truth value of a two-element
    comparison is undefined, and the call ends in [RuntimeError]; so does
    every longer 1-D sequence.  A single bound [d] is refused with
    [ValueError] when negative and gives the range [[-d, d]] otherwise.  A
    tensor that is not 1-D is accepted as it is when its rank is two and
    refused with [ValueError] otherwise. *)
Theorem random_rotation_init_by_rank :
  (forall lo hi rest center,
     RandomRotationMatrix.__init__
       (mkTensor [2 + length rest] (lo :: hi :: rest)) center
     = Err RuntimeError) /\
  (forall d center,
     RandomRotationMatrix.__init__ (mkTensor [1] [d]) center
     = if Qlt_bool d 0
       then Err (ValueError
                   "If degrees is a single number, it must be positive.")
       else Ok (RandomRotationMatrix.mk
                  (mkTensor [2] [(- d)%Q; d]) center None None)) /\
  (forall degrees center,
     length (shape degrees) <> 1 ->
     RandomRotationMatrix.__init__ degrees center
     = if length (shape degrees) =? 2
       then Ok (RandomRotationMatrix.mk degrees center None None)
       else Err (ValueError "If degrees is a sequence, it must be of len 2.")).
Proof.
  split; [|split].
  - intros lo hi rest center. reflexivity.
  - intros d center. unfold RandomRotationMatrix.__init__. cbn.
    destruct (Qlt_bool d 0); reflexivity.
  - intros degrees center Hrank. unfold RandomRotationMatrix.__init__.
    destruct (Nat.eqb_spec (length (shape degrees)) 1); [contradiction|].
    now destruct (length (shape degrees) =? 2).
Qed.

Lemma random_rotation_init_by_rank_witness :
  RandomRotationMatrix.__init__ (mkTensor [2] [- (10); 10]%Q) None
  = Err RuntimeError /\
  length (shape (mkTensor [1; 2] [- (10); 10]%Q)) <> 1 /\
  RandomRotationMatrix.__init__ (mkTensor [1; 2] [- (10); 10]%Q) None
  = Ok (RandomRotationMatrix.mk (mkTensor [1; 2] [- (10); 10]%Q) None None None).
Proof.
  destruct random_rotation_init_by_rank as [Hpair [_ Hrank]].
  split; [apply (Hpair (- (10))%Q 10%Q [] None)|].
  split; [discriminate|].
  apply (Hrank (mkTensor [1; 2] [- (10); 10]%Q) None). discriminate.
Defined.

(** ** No [ValueError] after the checks of [rotate] *)











Lemma shape0_batch_size (t : Tensor) :
  shape0 t = match batch_size t with
             | Some n => Ok n
             | None => Err IndexError
             end.
Proof. unfold shape0, batch_size. now destruct (shape t). Qed.




(** ** Sampling the angle *)

(** The parameters of a random rotation are one angle, drawn once. *)
Lemma random_rotation_params_single (self : RandomRotationMatrix.t)
    (num_samples : nat) (g g' : Generator) (a : Tensor) :
  RandomRotationMatrix._generate_params self num_samples g = (Ok a, g') ->
  shape a = [1] /\ length (data a) = 1 /\ cursor g' = cursor g + 1.
Proof.
  unfold RandomRotationMatrix._generate_params.
  destruct (tolist_bounds _) as [[lo hi]|e]; [|discriminate].
  cbn. intros [= <- <-]. cbn. repeat split.
Qed.

Lemma uniform_in_range (lo hi u : Q) :
  (lo <= hi)%Q -> (0 <= u)%Q -> (u <= 1)%Q ->
  (lo <= lo + u * (hi - lo))%Q /\ (lo + u * (hi - lo) <= hi)%Q.
Proof. intros Hr H0 H1. split; nra. Qed.

(** The angle lies in the configured range. *)
Lemma random_rotation_params_in_range (self : RandomRotationMatrix.t)
    (num_samples : nat) (g g' : Generator) (a : Tensor) (lo hi : Q) :
  RandomRotationMatrix.degrees self = mkTensor [2] [lo; hi] ->
  (lo <= hi)%Q ->
  (forall k, 0 <= unit_draw g k /\ unit_draw g k <= 1)%Q ->
  RandomRotationMatrix._generate_params self num_samples g = (Ok a, g') ->
  Forall (fun x => lo <= x /\ x <= hi)%Q (data a).
Proof.
  intros Hd Hr Hu. unfold RandomRotationMatrix._generate_params.
  rewrite Hd. cbn. intros [= <- _]. cbn.
  constructor; [|constructor].
  apply uniform_in_range; [assumption | apply Hu | apply Hu].
Qed.

(** C1: a successful [forward] of a [RandomRotationMatrix] leaves an angle
    tensor of exactly one element, whatever the batch size of its input: one
    draw is taken from the generator, not one per batch element.  The stored
    matrix is regenerated from that angle before the product is taken. *)
Theorem random_rotation_samples_one_angle
    (K : Kernels) (self self' : RandomRotationMatrix.t)
    (input y : Tensor) (g g' : Generator) :
  RandomRotationMatrix.forward self input g = (Ok y, self', g') ->
  exists a c M,
    RandomRotationMatrix.angle self' = Some a /\
    shape a = [1] /\
    length (data a) = 1 /\
    cursor g' = cursor g + 1 /\
    RandomRotationMatrix.center self = Some c /\
    rotation_matrix a c = Ok M /\
    RandomRotationMatrix.matrix self' = Some M /\
    matmul input M = Ok y.
Proof.
  unfold RandomRotationMatrix.forward, RandomRotationMatrix._generate_matrix.
  destruct (negb _); [discriminate|].
  destruct (RandomRotationMatrix.center self) as [c|]; [|discriminate].
  destruct (shape0 input) as [n|e]; [|discriminate].
  destruct (RandomRotationMatrix._generate_params self n g) as [[a|e] g1] eqn:Hp;
    [|discriminate].
  destruct (rotation_matrix a c) as [M|e] eqn:HM; [|discriminate].
  intros [= Hy <- <-].
  destruct (random_rotation_params_single _ _ _ _ _ Hp) as [Hs [Hl Hc]].
  exists a, c, M. cbn. repeat split; assumption.
Qed.

Lemma random_rotation_samples_one_angle_witness :
  let center := mkTensor [1; 2] [0; 0]%Q in
  let input := mkTensor [2; 1; 3] [1; 2; 1; 3; 4; 1]%Q in
  exists self y self' g' a,
    RandomRotationMatrix.__init__ (mkTensor [1] [10]%Q) (Some center) = Ok self /\
    shape0 input = Ok 2 /\
    RandomRotationMatrix.forward (K := identity_kernels) self input
      midpoint_generator = (Ok y, self', g') /\
    RandomRotationMatrix.angle self' = Some a /\
    shape a = [1].
Proof.
  intros center input.
  pose (self := RandomRotationMatrix.mk (mkTensor [2] [- (10); 10]%Q)
                  (Some center) None None).
  destruct (RandomRotationMatrix.forward (K := identity_kernels) self input
              midpoint_generator) as [[r self'] g'] eqn:Hfwd.
  destruct r as [y|e]; [|vm_compute in Hfwd; discriminate].
  destruct (random_rotation_samples_one_angle identity_kernels _ _ _ _ _ _ Hfwd)
    as [a [c [M [Ha [Hs _]]]]].
  exists self, y, self', g', a.
  split; [reflexivity|]. split; [reflexivity|]. split; [exact Hfwd|].
  split; assumption.
Defined.

(** ** The product computed by [forward] *)

(** On two batches of the same size [matmul] is the matrix product of the
    corresponding matrices. *)
Lemma matmul_blocks {X} (fa fb : X -> list Q) (xs : list X) (n m p : nat) :
  (forall x, length (fa x) = n * m) ->
  (forall x, length (fb x) = m * p) ->
  matmul (mkTensor [length xs; n; m] (concat (map fa xs)))
         (mkTensor [length xs; m; p] (concat (map fb xs)))
  = Ok (mkTensor [length xs; n; p]
          (concat (map (fun x => mm n m p (fa x) (fb x)) xs))).
Proof.
  intros Ha Hb. unfold matmul.
  cbn [shape data length Nat.eqb orb split_last2].
  rewrite Nat.eqb_refl, broadcast_shapes_refl.
  cbn [length pad_shape Nat.sub repeat app numel fold_right].
  rewrite Nat.mul_1_r.
  rewrite (chunks_concat_map (n * m)) by assumption.
  rewrite (chunks_concat_map (m * p)) by assumption.
  rewrite !expand_items_same
    by (rewrite length_map; cbn [numel fold_right]; lia).
  now rewrite map2_map_same.
Qed.

(** C3: [forward] of a [TranslationMatrix] or of a [RotationMatrix] holding
    the matrix [M] returns the product [M x].  A successful [forward] of a
    random wrapper generates a matrix [M] in this very call, from the batch
    size of the input and the generator it was given, stores it and returns
    the product [x M], with the input as the left operand: not the product
    [M x] of the deterministic wrappers. *)
Theorem wrapper_forward_products (K : Kernels) :
  (forall self M x,
     TranslationMatrix.matrix self = Some M ->
     TranslationMatrix.forward self x = matmul M x) /\
  (forall self M x,
     RotationMatrix.matrix self = Some M ->
     RotationMatrix.forward self x = matmul M x) /\
  (forall self x g y self' g',
     RandomRotationMatrix.forward self x g = (Ok y, self', g') ->
     exists B self1 M,
       length (shape x) = 3 /\
       shape0 x = Ok B /\
       RandomRotationMatrix._generate_matrix self B g = (Ok M, self1, g') /\
       self' = RandomRotationMatrix.set_matrix self1 M /\
       RandomRotationMatrix.matrix self' = Some M /\
       matmul x M = Ok y) /\
  (forall self x g y self' g',
     RandomTranslationMatrix.forward self x g = (Ok y, self', g') ->
     exists B self1 M,
       length (shape x) = 3 /\
       shape0 x = Ok B /\
       RandomTranslationMatrix._generate_matrix self B g = (Ok M, self1, g') /\
       self' = RandomTranslationMatrix.mk
                 (RandomTranslationMatrix.translation self1) (Some M) /\
       RandomTranslationMatrix.matrix self' = Some M /\
       matmul x M = Ok y).
Proof.
  repeat split.
  - intros self M x HM. unfold TranslationMatrix.forward. now rewrite HM.
  - intros self M x HM. unfold RotationMatrix.forward. now rewrite HM.
  - intros self x g y self' g' Hfwd.
    unfold RandomRotationMatrix.forward, shape0 in Hfwd.
    destruct (shape x) as [|B [|n [|m [|? ?]]]] eqn:Hx; try discriminate.
    cbn [length Nat.eqb negb] in Hfwd.
    destruct (RandomRotationMatrix.center self); [|discriminate].
    destruct (RandomRotationMatrix._generate_matrix _ _ _)
      as [[[M|e] s1] g1] eqn:Hgen; [|discriminate].
    injection Hfwd as Hy <- <-.
    exists B, s1, M. unfold shape0. rewrite Hx.
    repeat split; assumption.
  - intros self x g y self' g' Hfwd.
    unfold RandomTranslationMatrix.forward, shape0 in Hfwd.
    destruct (shape x) as [|B [|n [|m [|? ?]]]] eqn:Hx; try discriminate.
    cbn [length Nat.eqb negb] in Hfwd.
    destruct (RandomTranslationMatrix._generate_matrix _ _ _)
      as [[[M|e] s1] g1] eqn:Hgen; [|discriminate].
    injection Hfwd as Hy <- <-.
    exists B, s1, M. unfold shape0. rewrite Hx.
    repeat split; assumption.
Qed.

(** The result of a random translation wrapper differs from the product of
    its stored matrix against the input. *)
Lemma random_forward_multiplies_on_the_right :
  let x := mkTensor [1; 3; 3] [1; 0; 0; 0; 1; 0; 0; 0; 2]%Q in
  exists self y self' g' M z,
    RandomTranslationMatrix.__init__ (mkTensor [2] [- (3); 7]%Q) = Ok self /\
    RandomTranslationMatrix.forward self x midpoint_generator
    = (Ok y, self', g') /\
    RandomTranslationMatrix.matrix self' = Some M /\
    matmul M x = Ok z /\
    tensor_eqb y z = false.
Proof.
  intros x. do 6 eexists.
  split; [reflexivity|].
  split; [vm_compute; reflexivity|].
  split; [reflexivity|].
  split; [vm_compute; reflexivity|].
  vm_compute; reflexivity.
Qed.

(** With the translation fixed to [(2, 2)], the homogeneous point
    [(10, 20, 1)] given as a row comes back as [(10, 20, 61)], not moved to
    [(12, 22, 1)]; given as a column, the operand of [M x], it is
    refused. *)
Lemma random_forward_on_points :
  let self := RandomTranslationMatrix.mk (mkTensor [2] [2; 2]%Q) None in
  (exists y self' g',
     RandomTranslationMatrix.forward self
       (mkTensor [1; 1; 3] [10; 20; 1]%Q) midpoint_generator
     = (Ok y, self', g') /\
     tensor_eqb y (mkTensor [1; 1; 3] [10; 20; 61]%Q) = true) /\
  (exists self' g',
     RandomTranslationMatrix.forward self
       (mkTensor [1; 3; 1] [10; 20; 1]%Q) midpoint_generator
     = (Err RuntimeError, self', g')) /\
  (exists w z,
     TranslationMatrix.__init__ (Some (mkTensor [1; 2] [2; 2]%Q)) = Ok w /\
     TranslationMatrix.forward w (mkTensor [1; 3; 1] [10; 20; 1]%Q) = Ok z /\
     tensor_eqb z (mkTensor [1; 3; 1] [12; 22; 1]%Q) = true).
Proof.
  intros self. split; [|split].
  - do 3 eexists. split; vm_compute; reflexivity.
  - do 2 eexists. vm_compute. reflexivity.
  - do 2 eexists. split; [reflexivity|]. split; vm_compute; reflexivity.
Qed.

Lemma wrapper_forward_products_witness :
  let x := mkTensor [1; 3; 3] [1; 0; 0; 0; 1; 0; 0; 0; 2]%Q in
  let M := mkTensor [1; 3; 3] [1; 0; 0 + 5; 0; 1; 0 + 7; 0; 0; 1]%Q in
  let tr := mkTensor [1; 2] [5; 7]%Q in
  let self := RandomTranslationMatrix.mk (mkTensor [2] [2; 2]%Q) None in
  TranslationMatrix.forward (TranslationMatrix.mk (Some tr) (Some M)) x
  = matmul M x /\
  exists y self' g' M' z,
    RandomTranslationMatrix.forward self x midpoint_generator
    = (Ok y, self', g') /\
    RandomTranslationMatrix.matrix self' = Some M' /\
    matmul x M' = Ok y /\
    matmul M' x = Ok z /\
    tensor_eqb y z = false.
Proof.
  intros x M tr self.
  destruct (wrapper_forward_products identity_kernels)
    as [Htr [_ [_ Hrand]]].
  split.
  - apply Htr. reflexivity.
  - destruct (RandomTranslationMatrix.forward self x midpoint_generator)
      as [[r self'] g'] eqn:Hfwd.
    destruct r as [y|e]; [|vm_compute in Hfwd; discriminate].
    destruct (Hrand _ _ _ _ _ _ Hfwd)
      as (B & self1 & M' & _ & _ & _ & _ & HM & Hy).
    vm_compute in Hfwd. injection Hfwd as <- <- <-.
    cbn [RandomTranslationMatrix.matrix] in HM. injection HM as <-.
    do 5 eexists.
    split; [reflexivity|]. split; [reflexivity|].
    split; [exact Hy|]. split; vm_compute; reflexivity.
Defined.

(** * Further properties of the module *)

(** ** The default center of rotation *)

Lemma shape_last2_app (t : Tensor) (lead : list nat) (H W : nat) :
  shape t = lead ++ [H; W] -> shape_last2 t = [H; W].
Proof.
  intros Hs. unfold shape_last2. rewrite Hs, length_app. cbn [length].
  replace (length lead + 2 - 2) with (length lead + 0) by lia.
  rewrite skipn_app, Nat.add_0_r, skipn_all, Nat.sub_diag. reflexivity.
Qed.

(** X5: the default center of a tensor of rank at least two is the midpoint
    of its pixel grid, [x] from the width and [y] from the height:
    [2 cx = W - 1] and [2 cy = H - 1], whatever the leading dimensions; a
    tensor of rank below two has no center and the unpacking of its last two
    dimensions raises [ValueError]. *)
Theorem compute_rotation_center_midpoint :
  (forall t lead H W,
     shape t = lead ++ [H; W] ->
     exists cx cy,
       compute_rotation_center t = Ok (mkTensor [2] [cx; cy]) /\
       (2 * cx == inject_Z (Z.of_nat W - 1))%Q /\
       (2 * cy == inject_Z (Z.of_nat H - 1))%Q) /\
  (forall t,
     length (shape t) < 2 ->
     compute_rotation_center t
     = Err (ValueError "not enough values to unpack")).
Proof.
  split.
  - intros t lead H W Hs. unfold compute_rotation_center.
    rewrite (shape_last2_app t lead H W Hs).
    eexists; eexists. split; [reflexivity|].
    split; field.
  - intros t Hrank. unfold compute_rotation_center, shape_last2.
    destruct (shape t) as [|d [|? ?]]; cbn in *; try reflexivity. lia.
Qed.

Lemma compute_rotation_center_midpoint_witness :
  let t := mkTensor [3; 4; 5] (repeat 0%Q 60) in
  shape t = [3] ++ [4; 5] /\
  exists cx cy,
    compute_rotation_center t = Ok (mkTensor [2] [cx; cy]) /\
    (2 * cx == 4)%Q /\ (2 * cy == 3)%Q.
Proof.
  intros t. split; [reflexivity|].
  destruct (proj1 compute_rotation_center_midpoint t [3] 4 5 eq_refl)
    as [cx [cy [Hc [Hx Hy]]]].
  exists cx, cy. repeat split; assumption.
Defined.

(** ** Homogeneous matrices *)

(** The buffer of the homogeneous matrices of a batch of 2x3 matrices. *)
Lemma convert_matrix2d_to_homogeneous_data (B : nat) (d : list Q) :
  convert_matrix2d_to_homogeneous (mkTensor [B; 2; 3] d)
  = Ok (mkTensor [B; 3; 3]
          (flat_map (fun blk => removelast blk ++ [(last blk 0 + 1)%Q])
             (chunks 9 B
                (flat_map (fun blk => blk ++ [0; 0; 0]%Q) (chunks 6 B d))))).
Proof.
  unfold convert_matrix2d_to_homogeneous, pad_bottom_row, iadd_last_entry.
  cbn [shape data split_last2 bind app Nat.eqb orb numel fold_right repeat].
  rewrite Nat.mul_1_r. reflexivity.
Qed.

Lemma chunks_app_block {A} (n k : nat) (blk l : list A) :
  length blk = n -> chunks n (S k) (blk ++ l) = blk :: chunks n k l.
Proof.
  intros Hn. cbn [chunks].
  rewrite firstn_app, skipn_app, Hn, Nat.sub_diag.
  rewrite firstn_all2, skipn_all2 by lia.
  cbn. now rewrite app_nil_r.
Qed.

Lemma homogeneous_rows (B : nat) :
  forall d : list Q,
    length d = B * 6 ->
    exists h,
      flat_map (fun blk => removelast blk ++ [(last blk 0 + 1)%Q])
        (chunks 9 B (flat_map (fun blk => blk ++ [0; 0; 0]%Q) (chunks 6 B d)))
      = h /\
      length h = B * 9 /\
      flat_map (fun blk => flat_map (firstn 3) (firstn 2 (chunks 3 3 blk)))
               (chunks 9 B h) = d /\
      forall b, b < B ->
        (forall k, k < 6 -> nth_error h (b * 9 + k) = nth_error d (b * 6 + k)) /\
        nth_error h (b * 9 + 6) = Some 0%Q /\
        nth_error h (b * 9 + 7) = Some 0%Q /\
        nth_error h (b * 9 + 8) = Some 1%Q.
Proof.
  induction B as [|B IH]; intros d Hd.
  - exists []. destruct d; [|discriminate]. cbn. repeat split; lia.
  - do 6 (destruct d as [|? d]; [simpl in Hd; lia|]).
    destruct (IH d) as [h [Hh [Hlen [Hback Hitems]]]]; [simpl in Hd; lia|].
    exists ([q; q0; q1; q2; q3; q4; 0; 0; 1]%Q ++ h).
    split.
    { change (q :: q0 :: q1 :: q2 :: q3 :: q4 :: d)
        with ([q; q0; q1; q2; q3; q4] ++ d).
      rewrite (chunks_app_block 6) by reflexivity.
      cbn [flat_map].
      rewrite (chunks_app_block 9) by reflexivity.
      cbn [flat_map]. rewrite Hh. reflexivity. }
    split; [rewrite length_app; cbn [length]; lia|].
    split.
    { rewrite (chunks_app_block 9) by reflexivity.
      cbn [flat_map]. rewrite Hback. reflexivity. }
    intros [|b] Hb.
    + split; [|repeat split].
      intros k Hk. do 6 (destruct k as [|k]; [reflexivity|]). lia.
    + destruct (Hitems b) as [Hk [H6 [H7 H8]]]; [lia|].
      replace (S b * 9) with (9 + b * 9) by lia.
      replace (S b * 6) with (6 + b * 6) by lia.
      split; [|repeat split; assumption].
      intros k Hk6. cbn [Nat.add nth_error app]. now apply Hk.
Qed.

(** X1: [convert_matrix2d_to_homogeneous] turns a batch of [B] 2x3 matrices
    into a batch of [B] 3x3 matrices whose first two rows are those of the
    input and whose last row is [(0, 0, 1)]. *)
Theorem convert_matrix2d_to_homogeneous_rows :
  forall (matrix : Tensor) (B : nat),
    shape matrix = [B; 2; 3] ->
    wf matrix ->
    exists h,
      convert_matrix2d_to_homogeneous matrix = Ok h /\
      shape h = [B; 3; 3] /\
      wf h /\
      forall b, b < B ->
        (forall i j, i < 2 -> j < 3 ->
           exists q, item h [b; i; j] = Some q /\ item matrix [b; i; j] = Some q) /\
        item h [b; 2; 0] = Some 0%Q /\
        item h [b; 2; 1] = Some 0%Q /\
        item h [b; 2; 2] = Some 1%Q.
Proof.
  intros [s d] B Hs Hwf. cbn [shape] in Hs. subst s.
  unfold wf in Hwf. cbn [shape data numel fold_right] in Hwf.
  rewrite convert_matrix2d_to_homogeneous_data.
  destruct (homogeneous_rows B d) as [h [-> [Hlen [_ Hitems]]]]; [lia|].
  eexists. split; [reflexivity|]. split; [reflexivity|].
  split; [unfold wf; cbn [shape data numel fold_right]; lia|].
  intros b Hb. destruct (Hitems b Hb) as [Hk [H6 [H7 H8]]].
  unfold item. cbn [shape data offset numel fold_right].
  assert (Hbb : (b <? B) = true) by now apply Nat.ltb_lt.
  rewrite Hbb.
  split.
  - intros i j Hi Hj.
    assert (Hi2 : (i <? 2) = true) by now apply Nat.ltb_lt.
    assert (Hi3 : (i <? 3) = true) by (apply Nat.ltb_lt; lia).
    assert (Hj3 : (j <? 3) = true) by now apply Nat.ltb_lt.
    rewrite Hi2, Hi3, Hj3.
    replace (b * (3 * (3 * 1)) + (i * (3 * 1) + (j * 1 + 0)))
      with (b * 9 + (i * 3 + j)) by lia.
    replace (b * (2 * (3 * 1)) + (i * (3 * 1) + (j * 1 + 0)))
      with (b * 6 + (i * 3 + j)) by lia.
    rewrite Hk by lia.
    destruct (nth_error d (b * 6 + (i * 3 + j))) as [q|] eqn:Hq.
    + now exists q.
    + apply nth_error_None in Hq. lia.
  - cbn [Nat.ltb Nat.leb].
    replace (b * (3 * (3 * 1)) + (2 * (3 * 1) + (0 * 1 + 0))) with (b * 9 + 6) by lia.
    replace (b * (3 * (3 * 1)) + (2 * (3 * 1) + (1 * 1 + 0))) with (b * 9 + 7) by lia.
    replace (b * (3 * (3 * 1)) + (2 * (3 * 1) + (2 * 1 + 0))) with (b * 9 + 8) by lia.
    repeat split; assumption.
Qed.


Lemma convert_matrix2d_to_homogeneous_rows_witness :
  let m := mkTensor [1; 2; 3] [1; 2; 3; 4; 5; 6]%Q in
  shape m = [1; 2; 3] /\
  wf m /\
  exists h,
    convert_matrix2d_to_homogeneous m = Ok h /\
    item h [0; 2; 2] = Some 1%Q.
Proof.
  intros m. split; [reflexivity|]. split; [reflexivity|].
  destruct (convert_matrix2d_to_homogeneous_rows m 1 eq_refl eq_refl)
    as [h [Hh [_ [_ Hrows]]]].
  exists h. split; [exact Hh|].
  destruct (Hrows 0) as [_ [_ [_ H22]]]; [lia | exact H22].
Defined.

(** Cutting the affine part out of the homogeneous matrices gives back the
    2x3 matrices they were made from. *)
Lemma homogeneous_affine_roundtrip (matrix : Tensor) (B : nat) :
  shape matrix = [B; 2; 3] ->
  wf matrix ->
  (h <- convert_matrix2d_to_homogeneous matrix ;; slice_top_left h 2 3)
  = Ok matrix.
Proof.
  intros Hs Hwf. destruct matrix as [s d]. cbn [shape] in Hs. subst s.
  unfold wf in Hwf. cbn [shape data numel fold_right] in Hwf.
  rewrite convert_matrix2d_to_homogeneous_data.
  destruct (homogeneous_rows B d) as [h [-> [Hlen [Hback _]]]]; [lia|].
  cbn [bind]. unfold slice_top_left.
  cbn [shape data split_last2 app Nat.min numel fold_right].
  rewrite Nat.mul_1_r. change (3 * 3) with 9. now rewrite Hback.
Qed.

Lemma length_concat_map2 {A B} (n : nat) (f : A -> B -> list Q)
    (xs : list A) (ys : list B) :
  (forall x y, length (f x y) = n) ->
  length (concat (map2 f xs ys)) = Nat.min (length xs) (length ys) * n.
Proof.
  intros Hf. revert ys; induction xs as [|x xs IH]; intros [|y ys];
    cbn [map2 concat length Nat.min]; try reflexivity.
  rewrite length_app, Hf, IH. cbn. lia.
Qed.

Lemma get_rotation_matrix2d_wf (K : Kernels) (center angle scale m : Tensor) :
  get_rotation_matrix2d center angle scale = Ok m ->
  length (data angle) = numel (shape angle) ->
  length (data scale) = length (data angle) ->
  exists B,
    shape center = [B; 2] /\ shape angle = [B] /\ shape m = [B; 2; 3] /\ wf m.
Proof.
  unfold get_rotation_matrix2d.
  destruct (shape center) as [|bc [|[|[|[|?]]] [|? ?]]]; try discriminate.
  destruct (shape angle) as [|ba [|? ?]]; try discriminate.
  destruct (shape scale) as [|bs [|? ?]]; try discriminate.
  destruct (Nat.eqb_spec bc ba) as [->|]; [|discriminate].
  destruct (Nat.eqb_spec ba bs) as [<-|]; [|discriminate].
  cbn [andb]. intros [= <-] Ha Hs. cbn [numel fold_right] in Ha.
  exists ba. repeat split. unfold wf. cbn [shape data numel fold_right].
  rewrite (length_concat_map2 6).
  - rewrite chunks_length, length_combine, Hs. lia.
  - intros c [a s]. unfold rows2x3.
    destruct (rotation2d _ a s) as [[[? ?] ?] [[? ?] ?]]. reflexivity.
Qed.

Lemma convert_matrix2d_to_homogeneous_shape (m : Tensor) (B : nat) :
  shape m = [B; 2; 3] ->
  exists h, convert_matrix2d_to_homogeneous m = Ok h /\ shape h = [B; 3; 3].
Proof.
  destruct m as [s d]. cbn [shape]. intros ->.
  rewrite convert_matrix2d_to_homogeneous_data. eexists. split; reflexivity.
Qed.

(** X2: a [RotationMatrix] built from a batch of [B] angles and [B] centers
    stores [B] 3x3 matrices, and its [affine()] returns exactly the 2x3
    matrices that [get_rotation_matrix2d] computed for these centers and
    angles at scale one: making the matrices homogeneous and cutting their
    affine part out again loses nothing. *)
Theorem rotation_wrapper_affine_roundtrip
    (K : Kernels) (angle center : Tensor) (self : RotationMatrix.t) :
  wf angle ->
  RotationMatrix.__init__ (Some angle) (Some center) = Ok self ->
  exists B,
    shape angle = [B] /\
    shape center = [B; 2] /\
    (exists M, RotationMatrix.matrix self = Some M /\ shape M = [B; 3; 3]) /\
    RotationMatrix.affine self
    = get_rotation_matrix2d center angle (ones_like angle).
Proof.
  intros Hwf. unfold RotationMatrix.__init__, RotationMatrix._generate_matrix.
  cbn [RotationMatrix.angle RotationMatrix.center]. unfold rotation_matrix.
  destruct (get_rotation_matrix2d center angle (ones_like angle)) as [m|e] eqn:Hm;
    [|discriminate].
  destruct (get_rotation_matrix2d_wf K _ _ _ _ Hm) as [B [Hc [Ha [Hs Hwfm]]]];
    [exact Hwf | cbn; now rewrite length_map |].
  pose proof (homogeneous_affine_roundtrip m B Hs Hwfm) as Hround.
  destruct (convert_matrix2d_to_homogeneous_shape m B Hs) as [h [Hh Hsh]].
  cbn [bind]. rewrite Hh in *. cbn [bind] in *.
  intros [= <-]. exists B. split; [assumption|]. split; [assumption|].
  split; [now exists h|].
  unfold RotationMatrix.affine. cbn [RotationMatrix.matrix]. exact Hround.
Qed.

Lemma rotation_wrapper_affine_roundtrip_witness :
  let angle := mkTensor [2] [0; 90]%Q in
  let center := mkTensor [2; 2] [0; 0; 1; 1]%Q in
  wf angle /\
  exists self,
    RotationMatrix.__init__ (K := identity_kernels) (Some angle) (Some center)
    = Ok self /\
    RotationMatrix.affine self
    = get_rotation_matrix2d (K := identity_kernels) center angle
        (ones_like angle).
Proof.
  intros angle center. split; [reflexivity|].
  destruct (RotationMatrix.__init__ (K := identity_kernels)
              (Some angle) (Some center)) as [self|e] eqn:Hinit;
    [|vm_compute in Hinit; discriminate].
  exists self. split; [reflexivity|].
  destruct (rotation_wrapper_affine_roundtrip identity_kernels angle center
              self eq_refl Hinit) as [B [_ [_ [_ Haff]]]].
  exact Haff.
Defined.

(** ** Translation matrices under composition *)

Lemma translation_matrix_batch (t : Tensor) (B : nat) :
  shape t = [B; 2] -> wf t ->
  exists ps,
    length ps = B /\
    data t = concat (map pair_row ps) /\
    translation_matrix t
    = Ok (mkTensor [B; 3; 3] (concat (map translation_block ps))).
Proof.
  destruct t as [s d]. cbn [shape data]. intros -> Hwf.
  unfold wf in Hwf. cbn [shape data numel fold_right] in Hwf.
  destruct (rows_of_pairs B d) as [ps [Hps ->]]; [lia|]. subst B.
  exists ps. split; [reflexivity|]. split; [reflexivity|].
  now rewrite translation_matrix_rows, Nat.mul_1_r.
Qed.

Lemma select0_row (ps : list (Q * Q)) (b : nat) (dx dy : Q) :
  select0 (mkTensor [length ps; 2] (concat (map pair_row ps))) b
  = Ok (mkTensor [2] [dx; dy]) ->
  nth_error ps b = Some (dx, dy).
Proof.
  unfold select0. cbn [shape data].
  destruct (b <? length ps) eqn:Hb; [|discriminate].
  apply Nat.ltb_lt in Hb.
  destruct (nth_error ps b) as [p|] eqn:Hp;
    [|apply nth_error_None in Hp; lia].
  change (numel [2]) with 2.
  rewrite (piece_of_concat 2 pair_row ps b p) by (reflexivity || assumption).
  destruct p as [x y]. now intros [= -> ->].
Qed.

Lemma nth_error_combine {A B} (xs : list A) (ys : list B) (n : nat) (x : A) (y : B) :
  nth_error xs n = Some x -> nth_error ys n = Some y ->
  nth_error (combine xs ys) n = Some (x, y).
Proof.
  revert ys n; induction xs as [|x0 xs IH]; intros [|y0 ys] [|n]; cbn;
    try discriminate.
  - now intros [= ->] [= ->].
  - apply IH.
Qed.

Lemma map_fst_combine {A B} (xs : list A) (ys : list B) :
  length xs = length ys -> map fst (combine xs ys) = xs.
Proof.
  revert ys; induction xs as [|x xs IH]; intros [|y ys]; cbn;
    try discriminate; try reflexivity.
  intros [= Hl]. now rewrite IH.
Qed.

Lemma map_snd_combine {A B} (xs : list A) (ys : list B) :
  length xs = length ys -> map snd (combine xs ys) = ys.
Proof.
  revert ys; induction xs as [|x xs IH]; intros [|y ys]; cbn;
    try discriminate; try reflexivity.
  intros [= Hl]. now rewrite IH.
Qed.

(** X3: translations compose by adding up.  For two batches of [B]
    translation vectors, applying the wrapper of the first to the stored
    matrices of the second gives a batch of [B] matrices, the [b]-th being
    the translation by [(dx1 + dx2, dy1 + dy2)]. *)
Theorem translation_wrappers_compose :
  forall (t1 t2 : Tensor) (B : nat) (w1 w2 : TranslationMatrix.t) (M2 : Tensor),
    shape t1 = [B; 2] -> wf t1 ->
    shape t2 = [B; 2] -> wf t2 ->
    TranslationMatrix.__init__ (Some t1) = Ok w1 ->
    TranslationMatrix.__init__ (Some t2) = Ok w2 ->
    TranslationMatrix.matrix w2 = Some M2 ->
    exists P,
      TranslationMatrix.forward w1 M2 = Ok P /\
      shape P = [B; 3; 3] /\
      forall b dx1 dy1 dx2 dy2,
        select0 t1 b = Ok (mkTensor [2] [dx1; dy1]) ->
        select0 t2 b = Ok (mkTensor [2] [dx2; dy2]) ->
        exists Pb,
          select0 P b = Ok Pb /\
          tensor_equiv Pb
            (mkTensor [3; 3]
               [1; 0; dx1 + dx2; 0; 1; dy1 + dy2; 0; 0; 1]%Q).
Proof.
  intros t1 t2 B w1 w2 M2 Hs1 Hwf1 Hs2 Hwf2.
  destruct (translation_matrix_batch t1 B Hs1 Hwf1) as [ps [Hps [Hd1 HM1]]].
  destruct (translation_matrix_batch t2 B Hs2 Hwf2) as [qs [Hqs [Hd2 HM2]]].
  unfold TranslationMatrix.__init__, TranslationMatrix._generate_matrix.
  cbn [TranslationMatrix.translation]. rewrite HM1, HM2. cbn [bind].
  intros [= <-] [= <-]. cbn [TranslationMatrix.matrix]. intros [= <-].
  unfold TranslationMatrix.forward. cbn [TranslationMatrix.matrix].
  assert (Hlen : length ps = length qs) by congruence.
  assert (E1 : concat (map translation_block ps)
               = concat (map (fun x => translation_block (fst x))
                             (combine ps qs)))
    by (now rewrite <- (map_map fst translation_block), map_fst_combine).
  assert (E2 : concat (map translation_block qs)
               = concat (map (fun x => translation_block (snd x))
                             (combine ps qs)))
    by (now rewrite <- (map_map snd translation_block), map_snd_combine).
  assert (HB : B = length (combine ps qs))
    by (rewrite length_combine; lia).
  rewrite E1, E2. rewrite HB.
  rewrite (matmul_blocks (fun x => translation_block (fst x))
                         (fun x => translation_block (snd x)))
    by reflexivity.
  eexists. split; [reflexivity|]. split; [reflexivity|].
  intros b dx1 dy1 dx2 dy2 Hb1 Hb2.
  destruct t1 as [s1 d1], t2 as [s2 d2]. cbn [shape data] in *.
  subst s1 s2 d1 d2. rewrite <- Hps in Hb1. rewrite <- Hqs in Hb2.
  apply select0_row in Hb1. apply select0_row in Hb2.
  pose proof (nth_error_combine _ _ _ _ _ Hb1 Hb2) as Hb.
  unfold select0. cbn [shape data].
  assert (Hlt : (b <? length (combine ps qs)) = true).
  { apply Nat.ltb_lt. apply nth_error_Some. congruence. }
  rewrite Hlt. change (numel [3; 3]) with 9.
  rewrite (piece_of_concat 9 _ _ b _) by (reflexivity || exact Hb).
  eexists. split; [reflexivity|].
  split; [reflexivity|]. cbn [data fst snd].
  unfold translation_block, mm. cbv -[Qplus Qmult Qeq].
  repeat constructor; ring.
Qed.

Lemma translation_wrappers_compose_witness :
  let t1 := mkTensor [1; 2] [1; 2]%Q in
  let t2 := mkTensor [1; 2] [10; 20]%Q in
  exists w1 w2 M2 P Pb,
    TranslationMatrix.__init__ (Some t1) = Ok w1 /\
    TranslationMatrix.__init__ (Some t2) = Ok w2 /\
    TranslationMatrix.matrix w2 = Some M2 /\
    TranslationMatrix.forward w1 M2 = Ok P /\
    select0 P 0 = Ok Pb /\
    tensor_equiv Pb
      (mkTensor [3; 3] [1; 0; 1 + 10; 0; 1; 2 + 20; 0; 0; 1]%Q).
Proof.
  intros t1 t2.
  destruct (TranslationMatrix.__init__ (Some t1)) as [w1|e] eqn:H1;
    [|vm_compute in H1; discriminate].
  destruct (TranslationMatrix.__init__ (Some t2)) as [w2|e] eqn:H2;
    [|vm_compute in H2; discriminate].
  destruct (TranslationMatrix.matrix w2) as [M2|] eqn:HM2;
    [|vm_compute in H2; injection H2 as <-; discriminate].
  destruct (translation_wrappers_compose t1 t2 1 w1 w2 M2
              eq_refl eq_refl eq_refl eq_refl H1 H2 HM2)
    as [P [HP [_ Hrows]]].
  destruct (Hrows 0 1%Q 2%Q 10%Q 20%Q eq_refl eq_refl) as [Pb [HPb Heq]].
  exists w1, w2, M2, P, Pb. repeat split; try assumption; apply Heq.
Defined.

(** ** The shapes [translation_matrix] accepts *)

Lemma broadcast_rev_length (r1 r2 r : list nat) :
  broadcast_rev r1 r2 = Some r ->
  length r = Nat.max (length r1) (length r2).
Proof.
  revert r2 r; induction r1 as [|d1 t1 IH]; intros r2 r.
  - cbn. now intros [= <-].
  - destruct r2 as [|d2 t2].
    + cbn. now intros [= <-].
    + cbn [broadcast_rev].
      destruct (broadcast_rev t1 t2) as [t|] eqn:Ht; [|discriminate].
      apply IH in Ht.
      destruct (d1 =? d2); [|destruct (d1 =? 1); [|destruct (d2 =? 1)]];
        try discriminate; intros [= <-]; cbn; lia.
Qed.

Lemma broadcast_shapes_length (s1 s2 bs : list nat) :
  broadcast_shapes s1 s2 = Some bs ->
  length bs = Nat.max (length s1) (length s2).
Proof.
  unfold broadcast_shapes.
  destruct (broadcast_rev (rev s1) (rev s2)) as [r|] eqn:Hr; [|discriminate].
  cbn. intros [= <-]. apply broadcast_rev_length in Hr.
  now rewrite !length_rev in *.
Qed.

(** The shapes that an in-place addition to a column of [b] entries
    accepts. *)
Lemma broadcast_to_column (s : list nat) (b : nat) (d : list Q) :
  broadcast_to s [b; 1] d <> None ->
  s = [] \/ s = [1] \/ s = [b; 1] \/ s = [1; 1].
Proof.
  unfold broadcast_to.
  destruct (broadcast_shapes s [b; 1]) as [bs|] eqn:Hbs; [|congruence].
  unfold shape_eqb. destruct (list_eq_dec Nat.eq_dec bs [b; 1]) as [->|];
    [|congruence].
  intros _. pose proof (broadcast_shapes_length _ _ _ Hbs) as Hlen.
  cbn [length] in Hlen.
  destruct s as [|x [|y [|z s]]]; [now left | | | cbn [length] in Hlen; lia].
  - right. left. revert Hbs. unfold broadcast_shapes. cbn.
    destruct (Nat.eqb_spec x 1) as [->|Hx]; [reflexivity|].
    now intros [= ->].
  - right. right. revert Hbs. unfold broadcast_shapes. cbn.
    destruct (Nat.eqb_spec x b) as [->|Hxb].
    + destruct (Nat.eqb_spec y 1) as [->|Hy]; [now left|].
      cbn. now intros [= ->].
    + destruct (Nat.eqb_spec x 1) as [->|Hx1].
      * destruct (Nat.eqb_spec y 1) as [->|Hy]; [now right|].
        cbn. now intros [= ->].
      * destruct (Nat.eqb_spec b 1) as [->|Hb1].
        -- destruct (Nat.eqb_spec y 1) as [->|Hy]; cbn; intros [= ?]; congruence.
        -- destruct (y =? 1); cbn; discriminate.
Qed.

Lemma broadcast_to_refl_some (s : list nat) (d : list Q) :
  broadcast_to s s d <> None.
Proof.
  unfold broadcast_to. rewrite broadcast_shapes_refl. unfold shape_eqb.
  destruct (list_eq_dec Nat.eq_dec s s); congruence.
Qed.

Lemma iadd_row_slice_column_ok (b i : nat) (md : list Q) (v : Tensor) :
  i < 3 ->
  is_ok (iadd_row_slice (mkTensor [b; 3; 3] md) i 2 3 v) = true <->
  broadcast_to (shape v) [b; 1] (data v) <> None.
Proof.
  intros Hi. unfold iadd_row_slice.
  cbn [shape data split_last2 app Nat.min Nat.sub].
  apply Nat.ltb_lt in Hi. rewrite Hi.
  destruct (broadcast_to (shape v) [b; 1] (data v)); cbn; split;
    congruence.
Qed.

Lemma iadd_row_slice_shape (t : Tensor) (i lo hi : nat) (v r : Tensor) :
  iadd_row_slice t i lo hi v = Ok r -> shape r = shape t.
Proof.
  unfold iadd_row_slice.
  destruct (split_last2 (shape t)) as [[[lead rr] c]|]; [|discriminate].
  destruct (i <? rr); [|discriminate].
  destruct (broadcast_to _ _ _); [|discriminate].
  now intros [= <-].
Qed.

Lemma half_up_is_one (n : nat) : (n + 1) / 2 = 1 -> n = 1 \/ n = 2.
Proof.
  intros H.
  destruct n as [|[|[|n]]]; [discriminate | now left | now right |].
  exfalso.
  assert (2 <= (S (S (S n)) + 1) / 2)
    by (apply Nat.div_le_lower_bound; lia).
  lia.
Qed.

(** X4: [translation_matrix] returns a result exactly for a single vector
    of shape [(2)] and for a batch of shape [(B, 2)]; a scalar, a last
    dimension other than two and a rank above two all end in an exception. *)
Theorem translation_matrix_accepted_shapes (translation : Tensor) :
  is_ok (translation_matrix translation) = true <->
  shape translation = [2] \/ exists B, shape translation = [B; 2].
Proof.
  unfold translation_matrix, shape0, identity_matrix, repeat_batch, chunk2.
  cbn [shape data eye3_batch pad_shape length Nat.sub repeat app].
  destruct (shape translation) as [|b s] eqn:Hshape.
  { cbn. split; [discriminate|]. intros [?|[B ?]]; discriminate. }
  cbn [bind]. rewrite Nat.mul_1_r.
  destruct (rev (b :: s)) as [|n rlead] eqn:Hrev.
  { apply (f_equal (@length nat)) in Hrev. rewrite length_rev in Hrev.
    discriminate. }
  assert (Hs : b :: s = rev rlead ++ [n]).
  { rewrite <- (rev_involutive (b :: s)), Hrev. reflexivity. }
  destruct (Nat.eqb_spec n 1) as [->|Hn1].
  { cbn. split; [discriminate|].
    intros [E|[B E]]; rewrite E in Hs.
    - destruct (rev rlead) as [|? [|? ?]]; cbn in Hs; congruence.
    - destruct (rev rlead) as [|? [|? [|? ?]]]; cbn in Hs; congruence. }
  cbn [bind].
  remember ((n + 1) / 2) as k eqn:Hkdef.
  set (rows := chunks n (numel (rev rlead)) (data translation)).
  split.
  - set (M := mkTensor [b; 3; 3] _).
    set (dx := mkTensor (rev rlead ++ [k]) _).
    set (dy := mkTensor (rev rlead ++ [n - k]) _).
    destruct (iadd_row_slice M 0 2 3 dx) as [M1|e] eqn:H1; [|discriminate].
    intros _.
    assert (Hdx : broadcast_to (shape dx) [b; 1] (data dx) <> None).
    { apply (iadd_row_slice_column_ok b 0 (data M) dx); [lia|].
      change (is_ok (iadd_row_slice M 0 2 3 dx) = true). now rewrite H1. }
    apply broadcast_to_column in Hdx. cbn [shape] in Hdx.
    assert (Hk : k = 1 /\ (rev rlead = [] \/ rev rlead = [b])).
    { destruct (rev rlead) as [|x [|y l]]; cbn in Hdx, Hs.
      - destruct Hdx as [?|[?|[?|?]]]; try discriminate.
        split; [congruence | now left].
      - injection Hs as -> ->.
        destruct Hdx as [?|[?|[?|?]]]; try discriminate;
          (split; [congruence | now right]).
      - destruct l; destruct Hdx as [?|[?|[?|?]]]; discriminate. }
    destruct Hk as [Hk Hlead].
    rewrite Hk in Hkdef. symmetry in Hkdef.
    destruct (half_up_is_one n Hkdef) as [Hn|Hn]; [contradiction|]. subst n.
    destruct Hlead as [E|E]; rewrite E in Hs; cbn in Hs.
    + left. assumption.
    + right. exists b. assumption.
  - intros Hsh.
    assert (Hlead : n = 2 /\ (rev rlead = [] \/ rev rlead = [b])).
    { destruct Hsh as [E|[B E]]; rewrite E in Hs; injection E as ? ?; subst;
        destruct (rev rlead) as [|x [|y l]]; cbn in Hs;
        try (destruct l; discriminate); try discriminate;
        injection Hs; intros; subst; split; auto. }
    destruct Hlead as [Hn Hlead]. subst n.
    change ((2 + 1) / 2) with 1 in Hkdef. subst k. cbn [Nat.sub].
    assert (Hcol : forall v, shape v = rev rlead ++ [1] ->
              broadcast_to (shape v) [b; 1] (data v) <> None).
    { intros v Hv. rewrite Hv.
      destruct Hlead as [->| ->]; cbn [app].
      - unfold broadcast_to, broadcast_shapes. cbn.
        unfold shape_eqb.
        destruct (list_eq_dec Nat.eq_dec [b; 1] [b; 1]); congruence.
      - apply broadcast_to_refl_some. }
    match goal with
    | |- context [iadd_row_slice ?M 0 2 3 ?dx] =>
        pose proof (proj2 (iadd_row_slice_column_ok b 0 (data M) dx
                             (Nat.lt_0_succ 2)) (Hcol dx eq_refl)) as Hok1;
        cbn [data] in Hok1;
        destruct (iadd_row_slice M 0 2 3 dx) as [M1|e] eqn:H1;
        [|discriminate]
    end.
    cbn [bind].
    pose proof (iadd_row_slice_shape _ _ _ _ _ _ H1) as HM1.
    destruct M1 as [s1 d1]. cbn [shape] in HM1. subst s1.
    match goal with
    | |- context [iadd_row_slice ?M 1 2 3 ?dy] =>
        pose proof (proj2 (iadd_row_slice_column_ok b 1 d1 dy
                             ltac:(lia)) (Hcol dy eq_refl)) as Hok2;
        destruct (iadd_row_slice M 1 2 3 dy) as [M2|e] eqn:H2;
        [reflexivity|discriminate]
    end.
Qed.

(** ** The random translation wrapper *)

(** X6: the constructor of [RandomTranslationMatrix] succeeds exactly on
    1-D tensors of length one or two and refuses every other tensor with
    [ValueError].  A single bound [d] gives the range [[-d, d]] without any
    check of its sign; a pair is stored as it is. *)
Theorem random_translation_init_shapes (translation : Tensor) :
  (is_ok (RandomTranslationMatrix.__init__ translation) = true <->
   shape translation = [1] \/ shape translation = [2]) /\
  (forall e, RandomTranslationMatrix.__init__ translation = Err e ->
             exists msg, e = ValueError msg) /\
  (shape translation = [1] ->
   RandomTranslationMatrix.__init__ translation
   = Ok (RandomTranslationMatrix.mk
           (mkTensor [2] (map Qopp (data translation) ++ data translation))
           None)) /\
  (shape translation = [2] ->
   RandomTranslationMatrix.__init__ translation
   = Ok (RandomTranslationMatrix.mk translation None)).
Proof.
  unfold RandomTranslationMatrix.__init__, shape0, cat_neg_pos.
  destruct (shape translation) as [|n [|m s]] eqn:Hs; cbn [length Nat.eqb negb bind].
  - repeat split; try discriminate.
    + intros [?|?]; discriminate.
    + intros e [= <-]. eauto.
  - destruct (Nat.eqb_spec n 1) as [->|H1].
    + cbn [bind]. repeat split; try discriminate; auto.
    + destruct (Nat.eqb_spec n 2) as [->|H2].
      * repeat split; try discriminate; auto.
      * repeat split; try discriminate.
        -- intros [?|?]; congruence.
        -- intros e [= <-]. eauto.
        -- congruence.
        -- congruence.
  - repeat split; try discriminate.
    + intros [?|?]; discriminate.
    + intros e [= <-]. eauto.
Qed.

Lemma tolist_bounds_matrix (t : Tensor) (B k : nat) :
  shape t = [B; k] -> is_ok (tolist_bounds t) = false.
Proof.
  unfold tolist_bounds. intros ->. now destruct (B <? 2).
Qed.

Lemma matmul_batch_shape (x M y : Tensor) (B n m : nat) :
  shape x = [B; n; m] -> shape M = [B; 3; 3] ->
  matmul x M = Ok y -> m = 3 /\ shape y = [B; n; 3].
Proof.
  intros Hx HM. unfold matmul. rewrite Hx, HM.
  cbn [length Nat.eqb orb split_last2].
  destruct (Nat.eqb_spec m 3) as [->|]; [|discriminate].
  rewrite broadcast_shapes_refl. intros [= <-]. now split.
Qed.

Lemma uniform_fill (t : Tensor) (lo hi : Q) (g : Generator) :
  let '(r, g') := uniform_ t lo hi g in
  shape r = shape t /\
  length (data r) = length (data t) /\
  unit_draw g' = unit_draw g /\
  cursor g' = cursor g + length (data t) /\
  ((lo <= hi)%Q ->
   (forall k, 0 <= unit_draw g k /\ unit_draw g k <= 1)%Q ->
   Forall (fun x => lo <= x /\ x <= hi)%Q (data r)).
Proof.
  unfold uniform_. cbn [shape data unit_draw cursor].
  repeat split.
  - now rewrite length_map, length_seq.
  - intros Hr Hu. apply Forall_map, Forall_forall. intros k _.
    apply uniform_in_range; [assumption | apply Hu | apply Hu].
Qed.

Lemma random_translation_forward_inv
    (self self' : RandomTranslationMatrix.t) (input y : Tensor)
    (g g' : Generator) :
  RandomTranslationMatrix.forward self input g = (Ok y, self', g') ->
  exists lo hi B n M,
    tolist_bounds (RandomTranslationMatrix.translation self) = Ok (lo, hi) /\
    shape input = [B; n; 3] /\
    shape (RandomTranslationMatrix.translation self') = [B; 2] /\
    wf (RandomTranslationMatrix.translation self') /\
    unit_draw g' = unit_draw g /\
    cursor g' = cursor g + B * 2 /\
    translation_matrix (RandomTranslationMatrix.translation self') = Ok M /\
    shape M = [B; 3; 3] /\
    RandomTranslationMatrix.matrix self' = Some M /\
    matmul input M = Ok y /\
    shape y = [B; n; 3] /\
    ((lo <= hi)%Q ->
     (forall k, 0 <= unit_draw g k /\ unit_draw g k <= 1)%Q ->
     Forall (fun x => lo <= x /\ x <= hi)%Q
            (data (RandomTranslationMatrix.translation self'))).
Proof.
  unfold RandomTranslationMatrix.forward,
    RandomTranslationMatrix._generate_matrix,
    RandomTranslationMatrix._generate_params.
  destruct (shape input) as [|B [|n [|m [|? ?]]]] eqn:Hin; try discriminate.
  cbn [length Nat.eqb negb]. unfold shape0. rewrite Hin.
  destruct (tolist_bounds _) as [[lo hi]|e]; [|discriminate].
  pose proof (uniform_fill (mkTensor [B; 2] (repeat 0%Q (B * 2))) lo hi g)
    as Hfill.
  destruct (uniform_ _ lo hi g) as [tr g1].
  cbn [shape data] in Hfill. rewrite repeat_length in Hfill.
  destruct Hfill as [Hs [Hl [Hu [Hc Hrange]]]].
  assert (Hwf : wf tr)
    by (unfold wf; rewrite Hs, Hl; cbn; lia).
  destruct (translation_matrix_batch tr B Hs Hwf) as [ps [_ [_ HM]]].
  rewrite HM. cbn [RandomTranslationMatrix.translation
                   RandomTranslationMatrix.matrix].
  intros [= Hy <- <-].
  pose proof Hy as Hy2.
  eapply matmul_batch_shape in Hy2; [|exact Hin|reflexivity].
  destruct Hy2 as [-> Hys].
  exists lo, hi, B, n. eexists.
  cbn [RandomTranslationMatrix.translation RandomTranslationMatrix.matrix].
  repeat split; try eassumption; try reflexivity.
Qed.

(** X7: a successful [forward] of a [RandomTranslationMatrix] on an input
    of shape [(B, n, 3)] replaces the stored translation by a fresh batch of
    shape [(B, 2)], drawn with [2 B] variates from the range [[lo, hi]] the
    instance held, stores the translation matrices of that batch and returns
    a tensor of the shape of the input. *)
Theorem random_translation_forward_samples
    (self self' : RandomTranslationMatrix.t) (input y : Tensor)
    (g g' : Generator) :
  RandomTranslationMatrix.forward self input g = (Ok y, self', g') ->
  exists lo hi B n M,
    tolist_bounds (RandomTranslationMatrix.translation self) = Ok (lo, hi) /\
    shape input = [B; n; 3] /\
    shape (RandomTranslationMatrix.translation self') = [B; 2] /\
    wf (RandomTranslationMatrix.translation self') /\
    cursor g' = cursor g + B * 2 /\
    translation_matrix (RandomTranslationMatrix.translation self') = Ok M /\
    RandomTranslationMatrix.matrix self' = Some M /\
    shape y = [B; n; 3] /\
    ((lo <= hi)%Q ->
     (forall k, 0 <= unit_draw g k /\ unit_draw g k <= 1)%Q ->
     Forall (fun x => lo <= x /\ x <= hi)%Q
            (data (RandomTranslationMatrix.translation self'))).
Proof.
  intros Hfwd.
  destruct (random_translation_forward_inv _ _ _ _ _ _ Hfwd)
    as (lo & hi & B & n & M & H1 & H2 & H3 & H4 & _ & H6 & H7 & _ & H9 & _ & H11 & H12).
  exists lo, hi, B, n, M. repeat split; assumption.
Qed.

(** X8: a [RandomTranslationMatrix] works once.  The first successful
    [forward] overwrites the configured range with the sampled batch, so
    every later [forward] raises, draws nothing and leaves the instance as
    it is. *)
Theorem random_translation_forward_once
    (self self' : RandomTranslationMatrix.t) (input y : Tensor)
    (g g' : Generator) :
  RandomTranslationMatrix.forward self input g = (Ok y, self', g') ->
  forall input2 g2,
    exists e,
      RandomTranslationMatrix.forward self' input2 g2 = (Err e, self', g2).
Proof.
  intros Hfwd input2 g2.
  destruct (random_translation_forward_inv _ _ _ _ _ _ Hfwd)
    as (lo & hi & B & n & M & _ & _ & Hs & _).
  pose proof (tolist_bounds_matrix _ _ _ Hs) as Hb.
  unfold RandomTranslationMatrix.forward,
    RandomTranslationMatrix._generate_matrix,
    RandomTranslationMatrix._generate_params.
  destruct (negb _); [eauto|].
  destruct (shape0 input2); [|eauto].
  destruct (tolist_bounds _); [discriminate|]. eauto.
Qed.

Lemma random_translation_init_shapes_witness :
  RandomTranslationMatrix.__init__ (mkTensor [1] [- (5)]%Q)
  = Ok (RandomTranslationMatrix.mk (mkTensor [2] [- - (5); - (5)]%Q) None) /\
  exists msg,
    RandomTranslationMatrix.__init__ (mkTensor [3] [1; 2; 3]%Q)
    = Err (ValueError msg).
Proof.
  split.
  - apply (proj1 (proj2 (proj2 (random_translation_init_shapes
                                  (mkTensor [1] [- (5)]%Q))))).
    reflexivity.
  - destruct (RandomTranslationMatrix.__init__ (mkTensor [3] [1; 2; 3]%Q))
      as [self|e] eqn:Hinit; [vm_compute in Hinit; discriminate|].
    destruct (proj1 (proj2 (random_translation_init_shapes
                              (mkTensor [3] [1; 2; 3]%Q))) e Hinit)
      as [msg ->].
    now exists msg.
Defined.

Lemma random_translation_forward_samples_witness :
  let self := RandomTranslationMatrix.mk (mkTensor [2] [- (3); 7]%Q) None in
  let input := mkTensor [2; 1; 3] [1; 2; 1; 3; 4; 1]%Q in
  exists y self' g',
    RandomTranslationMatrix.forward self input midpoint_generator
    = (Ok y, self', g') /\
    shape (RandomTranslationMatrix.translation self') = [2; 2] /\
    cursor g' = 4 /\
    shape y = [2; 1; 3].
Proof.
  intros self input.
  destruct (RandomTranslationMatrix.forward self input midpoint_generator)
    as [[r self'] g'] eqn:Hfwd.
  destruct r as [y|e]; [|vm_compute in Hfwd; discriminate].
  destruct (random_translation_forward_samples _ _ _ _ _ _ Hfwd)
    as (lo & hi & B & n & M & _ & Hin & Hs & _ & Hc & _ & _ & Hy & _).
  injection Hin as <- <-.
  exists y, self', g'. repeat split; assumption.
Defined.

Lemma random_translation_forward_once_witness :
  let self := RandomTranslationMatrix.mk (mkTensor [2] [- (3); 7]%Q) None in
  let input := mkTensor [2; 1; 3] [1; 2; 1; 3; 4; 1]%Q in
  exists y self' g' e,
    RandomTranslationMatrix.forward self input midpoint_generator
    = (Ok y, self', g') /\
    RandomTranslationMatrix.forward self' input g' = (Err e, self', g').
Proof.
  intros self input.
  destruct (RandomTranslationMatrix.forward self input midpoint_generator)
    as [[r self'] g'] eqn:Hfwd.
  destruct r as [y|e]; [|vm_compute in Hfwd; discriminate].
  destruct (random_translation_forward_once _ _ _ _ _ _ Hfwd input g')
    as [e He].
  exists y, self', g', e. split; [reflexivity | exact He].
Defined.

(** ** The random rotation wrapper *)

(** One call keeps the range, the center and the generator's variates. *)
Lemma random_rotation_forward_keeps_range
    (K : Kernels) (d : Q) (self self' : RandomRotationMatrix.t)
    (input : Tensor) (r : result Tensor) (g g' : Generator) :
  (0 <= d)%Q ->
  RandomRotationMatrix.degrees self = mkTensor [2] [(- d)%Q; d] ->
  angle_within d self ->
  (forall k, 0 <= unit_draw g k /\ unit_draw g k <= 1)%Q ->
  RandomRotationMatrix.forward self input g = (r, self', g') ->
  RandomRotationMatrix.degrees self' = mkTensor [2] [(- d)%Q; d] /\
  RandomRotationMatrix.center self' = RandomRotationMatrix.center self /\
  angle_within d self' /\
  unit_draw g' = unit_draw g.
Proof.
  intros Hd Hdeg Hang Hu.
  unfold RandomRotationMatrix.forward, RandomRotationMatrix._generate_matrix,
    RandomRotationMatrix._generate_params.
  destruct (negb _); [now intros [= _ <- <-]|].
  destruct (RandomRotationMatrix.center self) as [c|] eqn:Hc;
    [|now intros [= _ <- <-]].
  destruct (shape0 input) as [n|e]; [|now intros [= _ <- <-]].
  rewrite Hdeg. cbn [tolist_bounds shape data].
  pose proof (uniform_fill (mkTensor [1] [inject_Z (Z.of_nat n)]) (- d) d g)
    as Hfill.
  destruct (uniform_ _ (- d)%Q d g) as [a g1].
  destruct Hfill as [_ [_ [Hu1 [_ Hrange]]]].
  assert (Ha : Forall (fun x => - d <= x /\ x <= d)%Q (data a)).
  { apply Hrange; [lra | exact Hu]. }
  destruct (rotation_matrix a c) as [M|e]; intros [= _ <- <-];
    cbn; repeat split; try assumption;
    intros a' [= <-]; exact Ha.
Qed.

(** X9: a [RandomRotationMatrix] built from a single bound [d] keeps the
    range [[-d, d]] and its center through any sequence of [forward] calls,
    whether they succeed or raise, and the angle it holds after them lies in
    [[-d, d]]. *)
Theorem random_rotation_angles_in_range
    (K : Kernels) (d : Q) (center : option Tensor)
    (self self' : RandomRotationMatrix.t)
    (inputs : list Tensor) (rs : list (result Tensor)) (g g' : Generator) :
  RandomRotationMatrix.__init__ (mkTensor [1] [d]) center = Ok self ->
  (forall k, 0 <= unit_draw g k /\ unit_draw g k <= 1)%Q ->
  forward_each self inputs g = (rs, self', g') ->
  (0 <= d)%Q /\
  RandomRotationMatrix.degrees self' = mkTensor [2] [(- d)%Q; d] /\
  RandomRotationMatrix.center self' = center /\
  forall a, RandomRotationMatrix.angle self' = Some a ->
            Forall (fun x => - d <= x /\ x <= d)%Q (data a).
Proof.
  unfold RandomRotationMatrix.__init__, bool_lt, cat_neg_pos, Qlt_bool.
  cbn [shape data length Nat.eqb bind map app Nat.add].
  destruct (Qle_bool 0 d) eqn:Hle; cbn [negb bind]; [|discriminate].
  apply Qle_bool_iff in Hle. intros [= <-] Hu Heach.
  split; [exact Hle|].
  set (self0 := RandomRotationMatrix.mk _ center None None) in *.
  assert (Hinv : RandomRotationMatrix.degrees self0 = mkTensor [2] [(- d)%Q; d]
                 /\ RandomRotationMatrix.center self0 = center
                 /\ angle_within d self0).
  { repeat split. intros a; discriminate. }
  clearbody self0. revert self0 g rs self' g' Hu Heach Hinv.
  induction inputs as [|input rest IH];
    intros self0 g rs self' g' Hu Heach [Hdeg [Hc Hang]].
  - cbn in Heach. injection Heach as _ <- _. now repeat split.
  - cbn [forward_each] in Heach.
    destruct (RandomRotationMatrix.forward self0 input g)
      as [[r self1] g1] eqn:Hfwd.
    destruct (forward_each self1 rest g1) as [[rs' self2] g2] eqn:Hrest.
    injection Heach as _ <- _.
    destruct (random_rotation_forward_keeps_range
                K d self0 self1 input r g g1 Hle Hdeg Hang Hu Hfwd)
      as [Hdeg1 [Hc1 [Hang1 Hu1]]].
    apply (IH self1 g1 rs' self2 g2); [|exact Hrest|].
    + intros k. rewrite Hu1. apply Hu.
    + repeat split; [assumption | congruence | assumption].
Qed.

(** X10: [forward] of a [RandomRotationMatrix] succeeds only with a center
    of shape [(1, 2)] and an input of shape [(B, n, 3)]: the single angle it
    draws needs a single center, the one 3x3 matrix built from them is
    applied to every element of the batch, and the result has the shape of
    the input. *)
Theorem random_rotation_forward_shape
    (K : Kernels) (self self' : RandomRotationMatrix.t)
    (input y : Tensor) (g g' : Generator) :
  RandomRotationMatrix.forward self input g = (Ok y, self', g') ->
  exists B n c M,
    shape input = [B; n; 3] /\
    RandomRotationMatrix.center self = Some c /\
    shape c = [1; 2] /\
    RandomRotationMatrix.matrix self' = Some M /\
    shape M = [1; 3; 3] /\
    shape y = shape input.
Proof.
  unfold RandomRotationMatrix.forward, RandomRotationMatrix._generate_matrix,
    RandomRotationMatrix._generate_params.
  destruct (shape input) as [|B [|n [|m [|? ?]]]] eqn:Hin; try discriminate.
  cbn [length Nat.eqb negb]. unfold shape0. rewrite Hin.
  destruct (RandomRotationMatrix.center self) as [c|]; [|discriminate].
  destruct (tolist_bounds _) as [[lo hi]|e]; [|discriminate].
  pose proof (uniform_fill (mkTensor [1] [inject_Z (Z.of_nat B)]) lo hi g)
    as Hfill.
  destruct (uniform_ _ lo hi g) as [a g1].
  cbn [shape data length] in Hfill. destruct Hfill as [Hs [Hl _]].
  unfold rotation_matrix.
  destruct (get_rotation_matrix2d c a (ones_like a)) as [m2|e] eqn:Hm;
    [|discriminate].
  destruct (get_rotation_matrix2d_wf K _ _ _ _ Hm) as [B1 [Hc [Ha [Hm2 _]]]];
    [rewrite Hs, Hl; reflexivity | cbn; now rewrite length_map |].
  rewrite Hs in Ha. injection Ha as <-.
  destruct m2 as [s2 d2]. cbn [shape] in Hm2. subst s2.
  cbn [bind]. rewrite convert_matrix2d_to_homogeneous_data.
  intros [= Hy <- <-].
  revert Hy. unfold matmul. rewrite Hin.
  cbn [shape length Nat.eqb orb split_last2].
  destruct (Nat.eqb_spec m 3) as [->|]; [|discriminate].
  assert (Hb : broadcast_shapes [B] [1] = Some [B]).
  { unfold broadcast_shapes. cbn.
    destruct (B =? 1) eqn:HB1; [reflexivity|]. reflexivity. }
  rewrite Hb. intros [= <-].
  exists B, n, c. eexists. cbn. repeat split; assumption.
Qed.

Lemma random_rotation_angles_in_range_witness :
  let center := Some (mkTensor [1; 2] [0; 0]%Q) in
  let input := mkTensor [2; 1; 3] [1; 2; 1; 3; 4; 1]%Q in
  exists self rs self' g' a,
    RandomRotationMatrix.__init__ (mkTensor [1] [10]%Q) center = Ok self /\
    forward_each (K := identity_kernels) self [input; input]
      midpoint_generator = (rs, self', g') /\
    RandomRotationMatrix.angle self' = Some a /\
    Forall (fun x => - (10) <= x /\ x <= 10)%Q (data a).
Proof.
  intros center input.
  pose (self := RandomRotationMatrix.mk (mkTensor [2] [- (10); 10]%Q)
                  center None None).
  destruct (forward_each (K := identity_kernels) self [input; input]
              midpoint_generator) as [[rs self'] g'] eqn:Heach.
  destruct (RandomRotationMatrix.angle self') as [a|] eqn:Ha;
    [|vm_compute in Heach; injection Heach as _ <- _; discriminate].
  assert (Hu : forall k, (0 <= unit_draw midpoint_generator k
                          /\ unit_draw midpoint_generator k <= 1)%Q)
    by (intros k; split; discriminate).
  destruct (random_rotation_angles_in_range identity_kernels 10%Q center
              self self' [input; input] rs midpoint_generator g'
              eq_refl Hu Heach) as [_ [_ [_ Hrange]]].
  exists self, rs, self', g', a.
  split; [reflexivity|]. split; [exact Heach|]. split; [exact Ha|].
  now apply Hrange.
Defined.

Lemma random_rotation_forward_shape_witness :
  let self := RandomRotationMatrix.mk (mkTensor [2] [- (10); 10]%Q)
                (Some (mkTensor [1; 2] [0; 0]%Q)) None None in
  let input := mkTensor [2; 1; 3] [1; 2; 1; 3; 4; 1]%Q in
  exists y self' g',
    RandomRotationMatrix.forward (K := identity_kernels) self input
      midpoint_generator = (Ok y, self', g') /\
    shape y = [2; 1; 3].
Proof.
  intros self input.
  destruct (RandomRotationMatrix.forward (K := identity_kernels) self input
              midpoint_generator) as [[r self'] g'] eqn:Hfwd.
  destruct r as [y|e]; [|vm_compute in Hfwd; discriminate].
  destruct (random_rotation_forward_shape identity_kernels _ _ _ _ _ _ Hfwd)
    as (B & n & c & M & _ & _ & _ & _ & _ & Hy).
  exists y, self', g'. split; [reflexivity | exact Hy].
Defined.

(** ** The entry points from end to end *)

Lemma slice_top_left_shape (M : Tensor) (B : nat) :
  shape M = [B; 3; 3] ->
  exists A, slice_top_left M 2 3 = Ok A /\ shape A = [B; 2; 3].
Proof.
  intros HM. unfold slice_top_left. rewrite HM.
  cbn [split_last2 app Nat.min]. eexists. split; reflexivity.
Qed.

Lemma affine_result_shape (K : Kernels) (t m : Tensor) (Bm : nat) :
  shape m = [Bm; 2; 3] ->
  (length (shape t) = 3 /\ Bm = 1) \/
  (length (shape t) = 4 /\ batch_size t = Some Bm) ->
  exists out, affine t m = Ok out /\ shape out = shape t.
Proof.
  intros Hm Hrank. unfold affine, ndimension, warp_affine, shape_last2,
    unsqueeze0, batch_size in *.
  destruct (shape t) as [|d0 [|d1 [|d2 [|d3 [|? ?]]]]] eqn:Hs;
    cbn [length] in Hrank; try lia.
  - destruct Hrank as [[_ ->]|[? _]]; [|discriminate].
    cbn [length Nat.eqb shape data Nat.sub skipn]. rewrite ?Hs, Hm.
    cbn [length Nat.eqb Nat.sub skipn bind squeeze0 shape].
    eexists. split; reflexivity.
  - destruct Hrank as [[? _]|[_ Hb]]; [discriminate|].
    cbn [hd_error] in Hb. injection Hb as ->.
    cbn [length Nat.eqb shape data Nat.sub skipn]. rewrite ?Hs, Hm.
    cbn [length Nat.sub skipn]. rewrite Nat.eqb_refl. cbn [bind].
    eexists. split; reflexivity.
Qed.

(** X11: [translate] refuses a tensor or a translation that is not a tensor
    with [TypeError], in this order, and a tensor whose rank is neither 3
    nor 4 with [ValueError] before the translation is looked at; on an
    unbatched tensor with one translation vector and on a batched tensor
    with one vector per image it returns a tensor of the shape of its
    input; with any other number of vectors it fails in the warp
    primitive. *)
Theorem translate_checks_and_shape (K : Kernels) :
  (forall tensor translation,
     is_tensor tensor = false ->
     translate tensor translation = Err (TypeError msg_tensor_type)) /\
  (forall t translation,
     is_tensor translation = false ->
     translate (PyTensor t) translation = Err (TypeError msg_translation_type)) /\
  (forall t tr,
     length (shape t) <> 3 -> length (shape t) <> 4 ->
     translate (PyTensor t) (PyTensor tr) = Err (ValueError msg_invalid_shape)) /\
  (forall t tr B,
     (length (shape t) = 3 /\ B = 1) \/
     (length (shape t) = 4 /\ batch_size t = Some B) ->
     shape tr = [B; 2] -> wf tr ->
     exists out,
       translate (PyTensor t) (PyTensor tr) = Ok out /\ shape out = shape t) /\
  (forall t tr B,
     (length (shape t) = 3 /\ B <> 1) \/
     (length (shape t) = 4 /\ batch_size t <> Some B) ->
     shape tr = [B; 2] -> wf tr ->
     translate (PyTensor t) (PyTensor tr) = Err CoreShapeError).
Proof.
  assert (Hsteps : forall t tr B,
            length (shape t) = 3 \/ length (shape t) = 4 ->
            shape tr = [B; 2] -> wf tr ->
            exists A, shape A = [B; 2; 3] /\
                      translate (PyTensor t) (PyTensor tr) = affine t A).
  { intros t tr B Hrank Hs Hwf.
    unfold translate. cbn [is_tensor negb tensor_attr bind].
    assert (Hr : (length (shape t) =? 3) || (length (shape t) =? 4) = true).
    { destruct Hrank as [-> | ->]; reflexivity. }
    rewrite Hr. cbn [negb].
    unfold TranslationMatrix.__init__, TranslationMatrix._generate_matrix.
    cbn [TranslationMatrix.translation].
    destruct (translation_matrix_batch tr B Hs Hwf) as [ps [_ [_ HM]]].
    rewrite HM. cbn [bind]. unfold TranslationMatrix.affine.
    cbn [TranslationMatrix.matrix].
    destruct (slice_top_left_shape (mkTensor [B; 3; 3]
                (concat (map translation_block ps))) B eq_refl)
      as [A [HA HsA]].
    rewrite HA. cbn [bind]. now exists A. }
  repeat split.
  - intros tensor translation Ht. unfold translate. now rewrite Ht.
  - intros t translation Ht. unfold translate. cbn [is_tensor negb].
    now rewrite Ht.
  - intros t tr H3 H4. unfold translate. cbn [is_tensor negb tensor_attr bind].
    destruct (Nat.eqb_spec (length (shape t)) 3); [contradiction|].
    destruct (Nat.eqb_spec (length (shape t)) 4); [contradiction|].
    reflexivity.
  - intros t tr B Hrank Hs Hwf.
    destruct (Hsteps t tr B) as [A [HsA ->]]; try assumption.
    + destruct Hrank as [[? _]|[? _]]; auto.
    + now apply (affine_result_shape K t A B).
  - intros t tr B Hrank Hs Hwf.
    destruct (Hsteps t tr B) as [A [HsA ->]]; try assumption.
    + destruct Hrank as [[? _]|[? _]]; auto.
    + now apply (affine_batch_mismatch K t A B).
Qed.

(** X12: [rotate], and the [Rotate] module calling it, returns a tensor of
    the shape of its input for an unbatched tensor with one angle and for a
    batched tensor with one angle per batch element, with the default
    center or with a center given as one vector, one row or one row per
    angle. *)
Theorem rotate_keeps_shape
    (K : Kernels) (t a : Tensor) (center : PyObject) (n : nat) :
  shape a = [n] ->
  (length (shape t) = 3 /\ n = 1) \/
  (length (shape t) = 4 /\ batch_size t = Some n) ->
  center = PyNone \/
  (exists c, center = PyTensor c /\
             (shape c = [2] \/ shape c = [1; 2] \/ shape c = [n; 2])) ->
  exists out,
    rotate (PyTensor t) (PyTensor a) center = Ok out /\
    Rotate.forward (Rotate.__init__ (PyTensor a) center) (PyTensor t) = Ok out /\
    shape out = shape t.
Proof.
  intros Ha Ht Hcenter.
  unfold Rotate.forward, Rotate.__init__. cbn [Rotate.angle Rotate.center].
  rewrite rotate_steps. cbv zeta.
  assert (Hrank : length (shape t) = 3 \/ length (shape t) = 4)
    by (destruct Ht as [[? _]|[? _]]; auto).
  assert (Hr : (length (shape t) =? 3) || (length (shape t) =? 4) = true).
  { destruct Hrank as [-> | ->]; reflexivity. }
  rewrite Hr. cbn [negb].
  assert (Hmis :
    (if (length (shape t) =? 3) && negb (length (shape a) =? 1)
     then Ok true
     else if length (shape t) =? 4
          then bt <- shape0 t ;; ba <- shape0 a ;; Ok (negb (bt =? ba))
          else Ok false) = Ok false).
  { rewrite Ha. cbn [length Nat.eqb negb]. rewrite andb_false_r.
    destruct Ht as [[-> _]|[-> Hb]]; [reflexivity|].
    cbn [Nat.eqb]. rewrite !shape0_batch_size, Hb.
    unfold batch_size. rewrite Ha. cbn. now rewrite Nat.eqb_refl. }
  rewrite Hmis. cbn [bind].
  assert (Hexp : exists c2,
    (center' <- (if is_none center
                 then c' <- compute_rotation_center t ;; Ok (PyTensor c')
                 else Ok center) ;;
     c' <- tensor_attr center' ;;
     k <- shape0 a ;;
     expand_rows c' k) = Ok c2 /\ shape c2 = [n; 2]).
  { unfold shape0. rewrite Ha.
    destruct Hcenter as [->|[c [-> Hc]]]; cbn [is_none].
    - unfold compute_rotation_center.
      assert (Hl2 : length (shape_last2 t) = 2)
        by (unfold shape_last2; rewrite length_skipn; lia).
      destruct (shape_last2 t) as [|h [|w [|? ?]]]; try discriminate.
      cbn. eexists. split; reflexivity.
    - cbn [bind tensor_attr]. unfold expand_rows.
      destruct Hc as [Hc|[Hc|Hc]]; rewrite Hc.
      + eexists. split; reflexivity.
      + destruct (Nat.eqb_spec 1 n) as [<-|].
        * eexists. split; [reflexivity|assumption].
        * cbn. eexists. split; reflexivity.
      + rewrite Nat.eqb_refl. eexists. split; [reflexivity|assumption]. }
  destruct Hexp as [c2 [Hc2 Hsc2]].
  revert Hc2.
  destruct (if is_none center
            then c' <- compute_rotation_center t ;; Ok (PyTensor c')
            else Ok center) as [center'|e]; [|discriminate].
  cbn [bind].
  destruct (tensor_attr center') as [c'|e]; [|discriminate].
  cbn [bind].
  destruct (shape0 a) as [k|e]; [|discriminate].
  cbn [bind]. intros ->. cbn [bind].
  unfold RotationMatrix.__init__, RotationMatrix._generate_matrix.
  cbn [RotationMatrix.angle RotationMatrix.center].
  destruct (rotation_matrix_shape K a c2 n Ha Hsc2) as [M [HM HsM]].
  rewrite HM. cbn [bind]. unfold RotationMatrix.affine.
  cbn [RotationMatrix.matrix].
  destruct (slice_top_left_shape M n HsM) as [A [HA HsA]].
  rewrite HA. cbn [bind].
  destruct (affine_result_shape K t A n HsA Ht) as [out [Hout Hshape]].
  exists out. repeat split; assumption.
Qed.

Lemma translate_checks_and_shape_witness :
  let t := mkTensor [1; 2; 2] [1; 2; 3; 4]%Q in
  let tr := mkTensor [1; 2] [1; 0]%Q in
  translate (K := identity_kernels) (PyFloat 1) (PyTensor tr)
  = Err (TypeError msg_tensor_type) /\
  exists out,
    translate (K := identity_kernels) (PyTensor t) (PyTensor tr) = Ok out /\
    shape out = [1; 2; 2].
Proof.
  intros t tr.
  destruct (translate_checks_and_shape identity_kernels)
    as [Htype [_ [_ [Hshape _]]]].
  split; [now apply Htype|].
  apply (Hshape t tr 1); [left; now split | reflexivity | reflexivity].
Defined.

Lemma rotate_keeps_shape_witness :
  let t := mkTensor [2; 1; 2; 2] [1; 2; 3; 4; 5; 6; 7; 8]%Q in
  let a := mkTensor [2] [0; 90]%Q in
  shape a = [2] /\
  batch_size t = Some 2 /\
  exists out,
    rotate (K := identity_kernels) (PyTensor t) (PyTensor a) PyNone = Ok out /\
    shape out = [2; 1; 2; 2].
Proof.
  intros t a. split; [reflexivity|]. split; [reflexivity|].
  destruct (rotate_keeps_shape identity_kernels t a PyNone 2 eq_refl)
    as [out [Hout [_ Hshape]]].
  - right. now split.
  - now left.
  - exists out. split; assumption.
Defined.
